(** * Helix SDK: the encryption envelope and the upload pipeline

    A shallow embedding of [sdk/typescript/src/encryption.ts] (class
    [HelixEncryption] and the standalone key helpers) and of
    [HelixClient.uploadFile] / [HelixClient.isAuthenticated] from
    [sdk/typescript/src/client.ts].

    The TypeScript code is a thin layer over the Web Crypto API
    ([crypto.subtle], [crypto.getRandomValues]) and Node's [Buffer].
    - Byte buffers ([ArrayBuffer], [Uint8Array], [Buffer]) are [list byte].
    - [Buffer]'s base64 codec is written out in full ([Base64]).
    - AES-GCM and PBKDF2 are the fields of the class [WebCrypto]; what the
      proofs need to know about them is stated as section hypotheses.
    - [async] methods run sequentially; they become computations in the
      monad [M], which threads the entropy stream and records every call
      that leaves the module (platform crypto, transport, registry). *)

From Stdlib Require Import Strings.String Strings.Ascii Strings.Byte.
From Stdlib Require Import NArith ZArith Lia Bool Arith List.
Import ListNotations.

Local Open Scope list_scope.

(** ** Bytes *)

Definition bytes := list byte.

(** A byte from a number, reduced modulo 256 as a [Uint8Array] store does. *)
Definition byte_of_N (n : N) : byte :=
  match Byte.of_N (n mod 256)%N with
  | Some b => b
  | None => x00
  end.

(** [TextEncoder.encode]: a string is held as its UTF-8 bytes. *)
Definition utf8_encode (s : string) : bytes := list_byte_of_string s.

(** Bit [j] of a byte inverted. *)
Definition flip_byte (b : byte) (j : nat) : byte :=
  byte_of_N (N.lxor (Byte.to_N b) (N.shiftl 1 (N.of_nat j))).

(** Bit [j] of byte [i] of a buffer inverted; past the end of the buffer
    nothing changes. *)
Fixpoint flip_bit (bs : bytes) (i j : nat) : bytes :=
  match bs, i with
  | [], _ => []
  | b :: rest, O => flip_byte b j :: rest
  | b :: rest, S i' => b :: flip_bit rest i' j
  end.

(** ** Base64, as [Buffer] implements it *)

Module Base64.

Local Open Scope N_scope.

Definition alphabet : list ascii :=
  list_ascii_of_string
    "ABCDEFGHIJKLMNOPQRSTUVWXYZabcdefghijklmnopqrstuvwxyz0123456789+/".

Definition pad : ascii := "="%char.

Definition b64_char (n : N) : ascii := nth (N.to_nat n) alphabet pad.

(** Value of a base64 character.  The decoder also accepts the URL-safe
    alphabet, where '-' is 62 and '_' is 63. *)
Definition unbase64 (c : ascii) : option N :=
  let n := N_of_ascii c in
  if (65 <=? n) && (n <=? 90) then Some (n - 65)
  else if (97 <=? n) && (n <=? 122) then Some (n - 71)
  else if (48 <=? n) && (n <=? 57) then Some (n + 4)
  else if (n =? 43) || (n =? 45) then Some 62
  else if (n =? 47) || (n =? 95) then Some 63
  else None.

Definition group24 (a b c : byte) : N :=
  N.lor (N.lor (N.shiftl (Byte.to_N a) 16) (N.shiftl (Byte.to_N b) 8))
        (Byte.to_N c).

Definition sextet (n : N) (k : N) : N := N.land (N.shiftr n k) 63.

(** [buf.toString('base64')]: three bytes become four characters, the
    last group is padded with '='. *)
Fixpoint encode_chars (bs : bytes) : list ascii :=
  match bs with
  | [] => []
  | [a] =>
      let n := group24 a x00 x00 in
      [b64_char (sextet n 18); b64_char (sextet n 12); pad; pad]
  | [a; b] =>
      let n := group24 a b x00 in
      [b64_char (sextet n 18); b64_char (sextet n 12);
       b64_char (sextet n 6); pad]
  | a :: b :: c :: rest =>
      let n := group24 a b c in
      b64_char (sextet n 18) :: b64_char (sextet n 12)
        :: b64_char (sextet n 6) :: b64_char (sextet n 0)
        :: encode_chars rest
  end.

Definition encode (bs : bytes) : string :=
  string_of_list_ascii (encode_chars bs).

(** The decoder is lenient: characters outside the alphabet (white
    space, line breaks) are skipped, and decoding stops at the first
    '='. *)
Fixpoint sextets (cs : list ascii) : list N :=
  match cs with
  | [] => []
  | c :: rest =>
      if Ascii.eqb c pad then []
      else match unbase64 c with
           | Some v => v :: sextets rest
           | None => sextets rest
           end
  end.

(** Four sextets give three bytes; a trailing group of three gives two
    bytes, of two gives one byte, and a single sextet gives none. *)
Fixpoint decode_sextets (l : list N) : bytes :=
  match l with
  | a :: b :: c :: d :: rest =>
      byte_of_N (N.lor (N.shiftl a 2) (N.shiftr b 4))
        :: byte_of_N (N.lor (N.shiftl b 4) (N.shiftr c 2))
        :: byte_of_N (N.lor (N.shiftl c 6) d)
        :: decode_sextets rest
  | [a; b; c] =>
      [byte_of_N (N.lor (N.shiftl a 2) (N.shiftr b 4));
       byte_of_N (N.lor (N.shiftl b 4) (N.shiftr c 2))]
  | [a; b] => [byte_of_N (N.lor (N.shiftl a 2) (N.shiftr b 4))]
  | _ => []
  end.

(** [Buffer.from(s, 'base64')] *)
Definition decode (s : string) : bytes :=
  decode_sextets (sextets (list_ascii_of_string s)).

End Base64.

Local Open Scope string_scope.
Local Open Scope list_scope.
Local Open Scope nat_scope.

(** ** Exceptions and results *)

(** What a rejected promise carries: an [Error] thrown by the SDK with its
    message, or a [DOMException] raised by the platform. *)
Inductive exn : Type :=
| Error (message : string)
| OperationError
| DataError
| RangeError.

Inductive result (A : Type) : Type :=
| Ok (a : A)
| Err (e : exn).

Arguments Ok {A} a.
Arguments Err {A} e.

(** The failure kinds of the specification, as the code raises them. *)
Definition InvalidEnvelope : exn := Error "Invalid encrypted data: too short".
Definition InvalidKeyLength : exn := Error "Invalid key length: expected 32 bytes".
Definition NotAuthenticated : exn := Error "Not authenticated".
Definition AuthenticationFailure : exn := OperationError.

(** ** Data *)

(** [type EncryptionKey = CryptoKey].  Every key this module makes is an
    extractable AES-GCM key with usages encrypt and decrypt, so a key is
    its raw octets. *)
Record CryptoKey : Type := mkKey { key_raw : bytes }.

Definition EncryptionKey := CryptoKey.

Record EncryptedData : Type := mkEncryptedData {
  data : bytes;  (* combined IV + ciphertext + auth tag *)
  iv : bytes     (* IV used for encryption *)
}.

Record CreateFileParams : Type := mkCreateFileParams {
  cf_transactionId : string;
  cf_encryptedName : option string;
  cf_mimeType : string;
  cf_size : nat;
  cf_isEncrypted : bool
}.

Record FileRecord : Type := mkFileRecord {
  fr_id : string;
  fr_transactionId : string
}.

(** Response of [/api/auth/verify]; [expiresAt] is an ISO timestamp in the
    source, held here as milliseconds since the epoch. *)
Record AuthToken : Type := mkAuthToken {
  token : string;
  expiresAt : Z
}.

Record WalletAdapter : Type := mkWallet {
  publicKey : option string;
  signMessage : option (bytes -> result bytes)
}.

Record UploadOptions : Type := mkUploadOptions {
  name : string;
  mimeType : string;
  encrypt_opt : option bool   (* encrypt?: boolean *)
}.

Record UploadResult : Type := mkUploadResult {
  transactionId : string;
  encryptionKey : option string;
  arweaveUrl : string
}.

Record HelixClient : Type := mkClient {
  wallet : option WalletAdapter;
  authToken : option string
}.

(** ** Calls that leave the module *)

Inductive call : Type :=
| GetRandomValues (n : nat)
| SubtleGenerateKey (bits : N)
| SubtleEncrypt (key : CryptoKey) (iv data : bytes)
| SubtleDecrypt (key : CryptoKey) (iv data : bytes)
| SubtleExportKey (key : CryptoKey)
| SubtleImportKey (raw : bytes)
| SubtleDeriveKey (password salt : bytes) (iterations bits : N)
| AuthGetNonce (walletAddress : string)
| AuthVerify (walletAddress signature nonce : string)
| IrysUpload (data : bytes) (tags : list (string * string))
| FilesCreate (bearer : option string) (params : CreateFileParams).

Definition is_transport_call (c : call) : bool :=
  match c with
  | IrysUpload _ _ => true
  | _ => false
  end.

(** ** The monad of asynchronous methods *)

(** The secure random source: an unbounded stream of bytes. *)
Definition entropy := nat -> byte.

(** A computation reads the entropy stream and hands the rest on, settles
    to a value or an exception, and lists the outside calls it made. *)
Definition M (A : Type) : Type := entropy -> result A * entropy * list call.

Definition ret {A} (a : A) : M A := fun e => (Ok a, e, []).

Definition throw {A} (x : exn) : M A := fun e => (Err x, e, []).

Definition bind {A B} (m : M A) (f : A -> M B) : M B :=
  fun e =>
    match m e with
    | (Ok a, e1, c1) =>
        match f a e1 with
        | (r, e2, c2) => (r, e2, c1 ++ c2)
        end
    | (Err x, e1, c1) => (Err x, e1, c1)
    end.

Definition emit (c : call) : M unit := fun e => (Ok tt, e, [c]).

Definition settle {A} (r : result A) : M A :=
  match r with
  | Ok a => ret a
  | Err x => throw x
  end.

Notation "x <- m ;; k" := (bind m (fun x => k))
  (at level 61, m at next level, right associativity).
Notation "m ;;; k" := (bind m (fun _ => k))
  (at level 61, right associativity).

Definition outcome {A} (r : result A * entropy * list call) : result A :=
  fst (fst r).
Definition calls {A} (r : result A * entropy * list call) : list call :=
  snd r.
Definition rest {A} (r : result A * entropy * list call) : entropy :=
  snd (fst r).

(** The first [n] bytes of the stream, and the stream after them. *)
Definition draw (n : nat) (e : entropy) : bytes := map e (seq 0 n).
Definition advance (n : nat) (e : entropy) : entropy := fun i => e (n + i)%nat.

(** ** The platform: Web Crypto *)

(** The two algorithms the platform supplies.  [gcm_ae key iv P] is the
    authenticated encryption function of GCM with an empty additional
    data and returns the pair (C, T); [gcm_ad key iv C T] is the
    authenticated decryption function, [None] being its FAIL.
    [pbkdf2_hmac_sha256 password salt iterations length] is PBKDF2 with
    HMAC-SHA-256 and [length] bits of output.  The functions are total:
    plaintexts beyond the GCM limit of 2^36 - 32 bytes are not
    distinguished. *)
Class WebCrypto : Type := {
  gcm_ae : bytes -> bytes -> bytes -> bytes * bytes;
  gcm_ad : bytes -> bytes -> bytes -> bytes -> option bytes;
  pbkdf2_hmac_sha256 : bytes -> bytes -> N -> N -> bytes
}.

(** Tag length in bytes; the code never sets [tagLength], so it is the
    default of 128 bits. *)
Definition TAG_LENGTH : nat := 16.

(** AES-GCM decryption of a ciphertext that ends in its tag. *)
Definition gcm_open {W : WebCrypto} (key iv ct : bytes) : option bytes :=
  if length ct <? TAG_LENGTH then None
  else
    let n := length ct - TAG_LENGTH in
    gcm_ad key iv (firstn n ct) (skipn n ct).

Definition gcm_seal {W : WebCrypto} (key iv pt : bytes) : bytes :=
  let (C, T) := gcm_ae key iv pt in C ++ T.

(** [crypto.getRandomValues(new Uint8Array(n))] *)
Definition getRandomValues (n : nat) : M bytes :=
  fun e => (Ok (draw n e), advance n e, [GetRandomValues n]).

(** [crypto.subtle.generateKey({name: 'AES-GCM', length}, true, ...)] *)
Definition subtle_generateKey (bits : N) : M CryptoKey :=
  fun e =>
    let n := N.to_nat (bits / 8)%N in
    (Ok (mkKey (draw n e)), advance n e, [SubtleGenerateKey bits]).

(** [crypto.subtle.encrypt({name: 'AES-GCM', iv}, key, data)] *)
Definition subtle_encrypt {W : WebCrypto} (iv : bytes) (key : CryptoKey)
    (data : bytes) : M bytes :=
  emit (SubtleEncrypt key iv data) ;;;
  ret (gcm_seal (key_raw key) iv data).

(** [crypto.subtle.decrypt({name: 'AES-GCM', iv}, key, data)] *)
Definition subtle_decrypt {W : WebCrypto} (iv : bytes) (key : CryptoKey)
    (data : bytes) : M bytes :=
  emit (SubtleDecrypt key iv data) ;;;
  match gcm_open (key_raw key) iv data with
  | Some plaintext => ret plaintext
  | None => throw OperationError
  end.

(** [crypto.subtle.exportKey('raw', key)] *)
Definition subtle_exportKey (key : CryptoKey) : M bytes :=
  emit (SubtleExportKey key) ;;; ret (key_raw key).

(** [crypto.subtle.importKey('raw', raw, {name: 'AES-GCM'}, true, ...)]:
    an AES key has 128, 192 or 256 bits. *)
Definition subtle_importKey (raw : bytes) : M CryptoKey :=
  emit (SubtleImportKey raw) ;;;
  if (length raw =? 16) || (length raw =? 24) || (length raw =? 32)
  then ret (mkKey raw)
  else throw DataError.

(** [crypto.subtle.importKey('raw', password, 'PBKDF2', false, ...)]
    followed by [crypto.subtle.deriveKey({name: 'PBKDF2', salt,
    iterations, hash: 'SHA-256'}, passwordKey, {name: 'AES-GCM', length},
    true, ...)]. *)
Definition subtle_deriveKey {W : WebCrypto} (password salt : bytes)
    (iterations bits : N) : M CryptoKey :=
  emit (SubtleDeriveKey password salt iterations bits) ;;;
  ret (mkKey (pbkdf2_hmac_sha256 password salt iterations bits)).

(** [new Uint8Array(n)] *)
Definition new_Uint8Array (n : nat) : bytes := repeat x00 n.

(** [dst.set(src, offset)] *)
Definition typed_set (dst src : bytes) (offset : nat) : M bytes :=
  if offset + length src <=? length dst
  then ret (firstn offset dst ++ src ++ skipn (offset + length src) dst)
  else throw RangeError.

(** A string in a condition: empty is false. *)
Definition truthy (s : option string) : bool :=
  match s with
  | Some s => negb (String.eqb s "")
  | None => false
  end.

(** ** encryption.ts *)

Definition IV_LENGTH : nat := 12.

Definition ALGORITHM_length : N := 256.

Module HelixEncryption.

Definition generateKey : M EncryptionKey :=
  subtle_generateKey ALGORITHM_length.

Definition encrypt {W : WebCrypto} (data : bytes) (key : EncryptionKey)
    : M EncryptedData :=
  iv <- getRandomValues IV_LENGTH ;;
  ciphertext <- subtle_encrypt iv key data ;;
  combined <- typed_set (new_Uint8Array (length iv + length ciphertext)) iv 0 ;;
  combined <- typed_set combined ciphertext (length iv) ;;
  ret (mkEncryptedData combined iv).

Definition decrypt {W : WebCrypto} (encryptedData : bytes)
    (key : EncryptionKey) : M bytes :=
  let dataArray := encryptedData in
  if length dataArray <? IV_LENGTH + 16 then throw InvalidEnvelope
  else
    let iv := firstn IV_LENGTH dataArray in
    let ciphertext := skipn IV_LENGTH dataArray in
    subtle_decrypt iv key ciphertext.

Definition exportKey (key : EncryptionKey) : M string :=
  raw <- subtle_exportKey key ;;
  ret (Base64.encode raw).

Definition importKey (keyString : string) : M EncryptionKey :=
  let raw := Base64.decode keyString in
  if negb (length raw =? 32) then throw InvalidKeyLength
  else subtle_importKey raw.

Definition deriveKey {W : WebCrypto} (password : string) (salt : bytes)
    : M EncryptionKey :=
  subtle_deriveKey (utf8_encode password) salt 100000 ALGORITHM_length.

Definition generateSalt : M bytes := getRandomValues 16.

End HelixEncryption.

(** The standalone functions exported next to the class. *)

Definition exportKey (key : EncryptionKey) : M string :=
  raw <- subtle_exportKey key ;;
  ret (Base64.encode raw).

Definition importKey (keyString : string) : M EncryptionKey :=
  let raw := Base64.decode keyString in
  subtle_importKey raw.

(** ** The services behind the SDK *)

(** The answers of the Helix API and of the Irys bundler; a failed
    request is an [Err]. *)
Class Backend : Type := {
  auth_nonce : string -> result string;
  auth_verify : string -> string -> string -> result AuthToken;
  irys_upload : option WalletAdapter -> bytes -> list (string * string)
                -> result string;
  files_create : option string -> CreateFileParams -> result FileRecord
}.

Module HelixAuth.

Definition getNonce {B : Backend} (walletAddress : string) : M string :=
  emit (AuthGetNonce walletAddress) ;;;
  settle (auth_nonce walletAddress).

Definition verify {B : Backend} (walletAddress signature nonce : string)
    : M AuthToken :=
  emit (AuthVerify walletAddress signature nonce) ;;;
  settle (auth_verify walletAddress signature nonce).

End HelixAuth.

(** A token is past its expiry at the instant [now].  The SDK's only
    expiry test, [HelixAuth.isTokenExpired], compares the clock with the
    expiry in the same direction; the client never calls it. *)
Definition token_expired (t : AuthToken) (now : Z) : bool :=
  (expiresAt t <=? now)%Z.

(** The tags [uploadToArweave] attaches to the upload. *)
Definition upload_tags (mimeType : string) : list (string * string) :=
  [("Content-Type", mimeType); ("App-Name", "Helix"); ("App-Version", "1.0.0")].

Module HelixFiles.

Definition uploadToArweave {B : Backend} (data : bytes) (mimeType : string)
    (wallet : option WalletAdapter) : M string :=
  let tags := upload_tags mimeType in
  emit (IrysUpload data tags) ;;;
  settle (irys_upload wallet data tags).

(** [getToken] is the client's [() => this.authToken]. *)
Definition create {B : Backend} (getToken : option string)
    (params : CreateFileParams) : M FileRecord :=
  emit (FilesCreate getToken params) ;;;
  settle (files_create getToken params).

End HelixFiles.

(** ** client.ts *)

(** [options.encrypt !== false] *)
Definition encrypt_enabled (options : UploadOptions) : bool :=
  match encrypt_opt options with
  | Some false => false
  | _ => true
  end.

Definition isAuthenticated (this : HelixClient) : bool :=
  match authToken this with
  | Some _ => true
  | None => false
  end.

Definition connect (this : HelixClient) (w : WalletAdapter) : M HelixClient :=
  match publicKey w with
  | None => throw (Error "Wallet not connected")
  | Some _ => ret (mkClient (Some w) (authToken this))
  end.

(** The method returns the token and stores it in [this.authToken]; the
    [expiresAt] of the response is dropped. *)
Definition authenticate {B : Backend} (this : HelixClient)
    : M (string * HelixClient) :=
  match wallet this with
  | None => throw (Error "Wallet not connected")
  | Some w =>
      match publicKey w with
      | None => throw (Error "Wallet not connected")
      | Some walletAddress =>
          nonce <- HelixAuth.getNonce walletAddress ;;
          let message := ("Sign in to Helix: " ++ nonce)%string in
          let messageBytes := utf8_encode message in
          match signMessage w with
          | None => throw (Error "Wallet does not support message signing")
          | Some sign =>
              signatureBytes <- settle (sign messageBytes) ;;
              let signature := Base64.encode signatureBytes in
              r <- HelixAuth.verify walletAddress signature nonce ;;
              ret (token r, mkClient (wallet this) (Some (token r)))
          end
      end
  end.

Definition disconnect (this : HelixClient) : HelixClient :=
  mkClient None None.

(** [this.log] writes to the console when [debug] is set and is left
    out; [this.wallet!] is passed on as it is, null or not. *)
Definition uploadFile {W : WebCrypto} {B : Backend} (this : HelixClient)
    (file : bytes) (options : UploadOptions) : M UploadResult :=
  if negb (isAuthenticated this) then throw NotAuthenticated
  else
    p <- (if encrypt_enabled options then
            key <- HelixEncryption.generateKey ;;
            encrypted <- HelixEncryption.encrypt file key ;;
            exported <- HelixEncryption.exportKey key ;;
            ret (data encrypted, Some exported)
          else ret (file, None)) ;;
    let dataToUpload := fst p in
    let encryptionKey := snd p in
    transactionId <- HelixFiles.uploadToArweave dataToUpload
                       (mimeType options) (wallet this) ;;
    encryptedName <-
      (if truthy encryptionKey then
         match encryptionKey with
         | Some keyString =>
             nameKey <- HelixEncryption.importKey keyString ;;
             let nameBytes := utf8_encode (name options) in
             encryptedNameData <- HelixEncryption.encrypt nameBytes nameKey ;;
             ret (Some (Base64.encode (data encryptedNameData)))
         | None => ret None
         end
       else ret None) ;;
    HelixFiles.create (authToken this)
      (mkCreateFileParams transactionId encryptedName (mimeType options)
         (length file) (encrypt_enabled options)) ;;;
    ret (mkUploadResult transactionId encryptionKey
           ("https://arweave.net/" ++ transactionId)%string).

(** ** Instances to run the model on *)

(** A stand-in for AES-GCM with the interface and the sizes of the real
    one: the ciphertext is the plaintext shifted by the first key byte,
    and the tag is a 16-byte checksum over ciphertext, key and IV. *)
Module Sample.

Definition checksum (bs : bytes) : N :=
  fold_right (fun b acc => ((Byte.to_N b + acc) mod 256)%N) 0%N bs.

Definition tag (key iv ct : bytes) : bytes :=
  byte_of_N (checksum ct)
    :: byte_of_N (checksum key) :: byte_of_N (checksum iv)
    :: repeat x00 13.

Definition mask (key : bytes) (b : byte) : byte :=
  byte_of_N (Byte.to_N b + Byte.to_N (hd x00 key)).

Definition unmask (key : bytes) (b : byte) : byte :=
  byte_of_N (Byte.to_N b + 256 - Byte.to_N (hd x00 key)).

Definition bytes_eqb (a b : bytes) : bool :=
  if list_eq_dec Byte.byte_eq_dec a b then true else false.

Definition ae (key iv pt : bytes) : bytes * bytes :=
  let ct := map (mask key) pt in (ct, tag key iv ct).

Definition ad (key iv ct t : bytes) : option bytes :=
  if bytes_eqb t (tag key iv ct) then Some (map (unmask key) ct) else None.

Definition kdf (password salt : bytes) (iterations bits : N) : bytes :=
  map (fun i => nth i (password ++ salt) x00)
      (seq 0 (N.to_nat (bits / 8)%N)).

Definition crypto : WebCrypto :=
  {| gcm_ae := ae; gcm_ad := ad; pbkdf2_hmac_sha256 := kdf |}.

Definition backend : Backend :=
  {| auth_nonce := fun _ => Ok "n0";
     auth_verify := fun _ _ _ => Ok (mkAuthToken "jwt" 1000%Z);
     irys_upload := fun _ _ _ => Ok "abc123";
     files_create := fun _ p => Ok (mkFileRecord "f1" (cf_transactionId p)) |}.

Definition counter : entropy := fun i => byte_of_N (N.of_nat i).

Definition signer : WalletAdapter :=
  mkWallet (Some "wallet1") (Some (fun m => Ok m)).

Definition hello : bytes := utf8_encode "hello".

Definition key32 : CryptoKey := mkKey (draw 32 counter).

Definition envelope : EncryptedData :=
  let v := draw IV_LENGTH counter in
  mkEncryptedData (v ++ gcm_seal (W := crypto) (key_raw key32) v hello) v.

Definition session : AuthToken := mkAuthToken "jwt" 1000.

Definition client : HelixClient := mkClient (Some signer) (Some "jwt").

Definition defaults : UploadOptions :=
  mkUploadOptions "a.txt" "text/plain" None.

End Sample.

(** * The rest of the SDK *)

(** ** encryption.ts: the functions that take the key as a string *)

Definition encryptWithKeyString {W : WebCrypto} (data : bytes)
    (keyString : string) : M bytes :=
  key <- importKey keyString ;;
  iv <- getRandomValues IV_LENGTH ;;
  ciphertext <- subtle_encrypt iv key data ;;
  combined <- typed_set (new_Uint8Array (length iv + length ciphertext)) iv 0 ;;
  typed_set combined ciphertext (length iv).

Definition decryptWithKeyString {W : WebCrypto} (encryptedData : bytes)
    (keyString : string) : M bytes :=
  key <- importKey keyString ;;
  let dataArray := encryptedData in
  let iv := firstn IV_LENGTH dataArray in
  let ciphertext := skipn IV_LENGTH dataArray in
  subtle_decrypt iv key ciphertext.

(** The key lengths [crypto.subtle.importKey] takes for AES. *)
Definition aes_key_length (n : nat) : bool :=
  (n =? 16) || (n =? 24) || (n =? 32).

(** ** auth.ts: the static helpers *)

(** [s.split(sep)] for a one-character separator: the pieces between the
    separators, of which there is always at least one. *)
Fixpoint String_split (sep : ascii) (s : string) : list string :=
  match s with
  | EmptyString => [EmptyString]
  | String c rest =>
      if Ascii.eqb c sep then EmptyString :: String_split sep rest
      else match String_split sep rest with
           | piece :: pieces => String c piece :: pieces
           | [] => [String c EmptyString]
           end
  end.

(** [JSON.parse] and the comparison [Date.now() >= exp * 1000] on what it
    returned, with [now] the reading of the clock; either may throw. *)
Class Json : Type := {
  jsvalue : Type;
  JSON_parse : string -> result jsvalue;
  exp_reached : jsvalue -> Z -> result bool
}.

Definition createSignMessage (nonce : string) : string :=
  ("Sign in to Helix: " ++ nonce)%string.

Definition parseToken {J : Json} (token : string) : result jsvalue :=
  let parts := String_split "."%char token in
  if negb (length parts =? 3) then Err (Error "Invalid token format")
  else
    let payload := string_of_list_byte (Base64.decode (nth 1 parts "")) in
    JSON_parse payload.

(** The [try] block returns the comparison; the [catch] returns true. *)
Definition isTokenExpired {J : Json} (token : string) (now : Z) : bool :=
  match parseToken token with
  | Ok claims =>
      match exp_reached claims now with
      | Ok reached => reached
      | Err _ => true
      end
  | Err _ => true
  end.

(** ** files.ts: the request headers *)

(** A [Record<string, string>] built by assignment, in insertion order. *)
Definition getHeaders (getToken : option string) : list (string * string) :=
  let token := getToken in
  let headers := [("Content-Type", "application/json")] in
  if truthy token then
    match token with
    | Some t => headers ++ [("Authorization", ("Bearer " ++ t)%string)]
    | None => headers
    end
  else headers.

(** ** client.ts: configuration and download *)

Inductive HelixNetwork : Type := mainnet_beta | devnet | testnet.

(** An optional property of an object literal: left out, present with the
    value [undefined], or present with a value. *)
Inductive property (T : Type) : Type :=
| Absent
| Undefined
| Given (t : T).

Arguments Absent {T}.
Arguments Undefined {T}.
Arguments Given {T} t.

Record HelixClientConfig : Type := mkClientConfig {
  network : property HelixNetwork;
  rpcEndpoint : property string;
  apiBaseUrl : property string;
  timeout : property N;
  debug : property bool
}.

(** [this.config]; a field is [None] when it holds [undefined]. *)
Record ClientConfig : Type := mkConfig {
  config_network : option HelixNetwork;
  config_rpcEndpoint : option string;
  config_apiBaseUrl : option string;
  config_timeout : option N;
  config_debug : option bool
}.

Definition DEFAULT_CONFIG : ClientConfig :=
  mkConfig (Some mainnet_beta) (Some "https://api.mainnet-beta.solana.com")
    (Some "https://heyx-production.up.railway.app") (Some 30000%N) (Some false).

(** One property of [{ ...defaults, ...config }]. *)
Definition spread {T} (default : option T) (p : property T) : option T :=
  match p with
  | Absent => default
  | Undefined => None
  | Given t => Some t
  end.

(** The configuration the constructor leaves in [this.config]. *)
Definition constructor_config (config : HelixClientConfig) : ClientConfig :=
  let merged :=
    mkConfig (spread (config_network DEFAULT_CONFIG) (network config))
      (spread (config_rpcEndpoint DEFAULT_CONFIG) (rpcEndpoint config))
      (spread (config_apiBaseUrl DEFAULT_CONFIG) (apiBaseUrl config))
      (spread (config_timeout DEFAULT_CONFIG) (timeout config))
      (spread (config_debug DEFAULT_CONFIG) (debug config)) in
  match config_network merged with
  | Some devnet =>
      mkConfig (config_network merged) (Some "https://api.devnet.solana.com")
        (config_apiBaseUrl merged) (config_timeout merged)
        (config_debug merged)
  | _ => merged
  end.

(** The fields of a new client: no wallet, no token. *)
Definition constructor_state : HelixClient := mkClient None None.

Record HelixConfig : Type := mkHelixConfig {
  hc_network : option HelixNetwork;
  hc_rpcEndpoint : option string;
  hc_apiBaseUrl : option string
}.

Definition getConfig (config : ClientConfig) : HelixConfig :=
  mkHelixConfig (config_network config) (config_rpcEndpoint config)
    (config_apiBaseUrl config).

(** What [fetch] resolves to. *)
Record Response : Type := mkResponse {
  resp_ok : bool;
  resp_statusText : string;
  resp_arrayBuffer : result bytes
}.

(** The Arweave gateway: the answer to [fetch(url)].  The request is not
    entered in the call log, which keeps to the calls of [call]. *)
Class Gateway : Type := {
  fetch : string -> result Response
}.

Definition downloadFile {W : WebCrypto} {G : Gateway} (this : HelixClient)
    (transactionId : string) (encryptionKey : option string) : M bytes :=
  let url := ("https://arweave.net/" ++ transactionId)%string in
  response <- settle (fetch url) ;;
  if negb (resp_ok response) then
    throw (Error ("Failed to download file: " ++ resp_statusText response)%string)
  else
    fetched <- settle (resp_arrayBuffer response) ;;
    if truthy encryptionKey then
      match encryptionKey with
      | Some keyString =>
          key <- HelixEncryption.importKey keyString ;;
          HelixEncryption.decrypt fetched key
      | None => ret fetched
      end
    else ret fetched.

(** ** More instances to run the model on *)

Module Demo.

(** The payload of the first transport call of a run. *)
Fixpoint uploaded (cs : list call) : option bytes :=
  match cs with
  | [] => None
  | IrysUpload payload _ :: _ => Some payload
  | _ :: rest => uploaded rest
  end.

Definition upload : result UploadResult * entropy * list call :=
  uploadFile (W := Sample.crypto) (B := Sample.backend)
    Sample.client Sample.hello Sample.defaults Sample.counter.

(** A gateway that serves what the sample upload stored. *)
Definition gateway : Gateway :=
  {| fetch := fun url =>
       if String.eqb url "https://arweave.net/abc123" then
         match uploaded (calls upload) with
         | Some payload => Ok (mkResponse true "OK" (Ok payload))
         | None => Ok (mkResponse false "Not Found" (Ok []))
         end
       else Ok (mkResponse false "Not Found" (Ok [])) |}.

(** A JSON platform for tokens whose payload is never read. *)
Definition json : Json :=
  {| jsvalue := Z;
     JSON_parse := fun _ => Err (Error "SyntaxError");
     exp_reached := fun exp now => Ok (exp * 1000 <=? now)%Z |}.

Definition keyString : string := "AAECAwQFBgcICQoLDA0ODxAREhMUFRYXGBkaGxwdHh8=".

Definition unsigned : WalletAdapter := mkWallet (Some "wallet1") None.

End Demo.

(** * Properties *)

(** ** Base64 round trip *)

Lemma byte_of_to_N (b : byte) : byte_of_N (Byte.to_N b) = b.
Proof.
  unfold byte_of_N.
  pose proof (Byte.to_N_bounded b) as Hb.
  rewrite N.mod_small by lia.
  now rewrite Byte.of_to_N.
Qed.

Lemma to_N_lt (b : byte) : (Byte.to_N b < 256)%N.
Proof. pose proof (Byte.to_N_bounded b). lia. Qed.

Lemma land_shiftl_low (a k x : N) :
  (x < 2 ^ k)%N -> N.land (N.shiftl a k) x = 0%N.
Proof.
  intros Hx. apply N.bits_inj. intros i.
  rewrite N.land_spec, N.bits_0.
  destruct (N.lt_ge_cases i k) as [Hi | Hi].
  - now rewrite N.shiftl_spec_low.
  - rewrite <- (N.mod_small x (2 ^ k)) by assumption.
    rewrite N.mod_pow2_bits_high by assumption.
    apply andb_false_r.
Qed.

Lemma lor_shiftl_low (a k x : N) :
  (x < 2 ^ k)%N -> N.lor (N.shiftl a k) x = (a * 2 ^ k + x)%N.
Proof.
  intros Hx.
  rewrite <- N.lxor_lor by now apply land_shiftl_low.
  rewrite <- N.add_nocarry_lxor by now apply land_shiftl_low.
  now rewrite N.shiftl_mul_pow2.
Qed.

Import Base64.

Lemma group24_arith (a b c : byte) :
  group24 a b c = ((Byte.to_N a * 256 + Byte.to_N b) * 256 + Byte.to_N c)%N.
Proof.
  unfold group24.
  pose proof (to_N_lt b). pose proof (to_N_lt c).
  replace 16%N with (8 + 8)%N by reflexivity.
  rewrite <- N.shiftl_shiftl, <- N.shiftl_lor.
  rewrite (lor_shiftl_low _ 8 (Byte.to_N c)) by (simpl; lia).
  rewrite (lor_shiftl_low _ 8 (Byte.to_N b)) by (simpl; lia).
  reflexivity.
Qed.

Lemma sextet_arith (n k : N) : sextet n k = ((n / 2 ^ k) mod 64)%N.
Proof.
  unfold sextet. rewrite N.shiftr_div_pow2.
  change 63%N with (N.ones 6). now rewrite N.land_ones.
Qed.

Lemma sextet_lt (n k : N) : (sextet n k < 64)%N.
Proof. rewrite sextet_arith. apply N.mod_lt. discriminate. Qed.

Lemma unbase64_b64_char (n : N) :
  (n < 64)%N -> unbase64 (b64_char n) = Some n /\ Ascii.eqb (b64_char n) pad = false.
Proof.
  intros Hn.
  assert (Hin : In n (map N.of_nat (seq 0 64))).
  { apply in_map_iff. exists (N.to_nat n). split; [lia | apply in_seq; lia]. }
  revert Hin. generalize n. apply Forall_forall.
  repeat constructor.
Qed.

Lemma byte_of_N_eq (n : N) (b : byte) :
  (n mod 256 = Byte.to_N b)%N -> byte_of_N n = b.
Proof.
  intros H. unfold byte_of_N. rewrite H. now rewrite Byte.of_to_N.
Qed.

Lemma lor_hi_lo (s t k j : N) :
  (t < 64)%N -> (2 ^ j * 2 ^ k = 64)%N ->
  N.lor (N.shiftl s k) (N.shiftr t j) = (s * 2 ^ k + t / 2 ^ j)%N.
Proof.
  intros Ht Hjk. rewrite N.shiftr_div_pow2.
  apply lor_shiftl_low.
  apply N.Div0.div_lt_upper_bound. lia.
Qed.

Lemma regroup (a b c : N) :
  (a < 256 -> b < 256 -> c < 256 ->
   let n := (a * 256 + b) * 256 + c in
   let s1 := (n / 2 ^ 18) mod 64 in
   let s2 := (n / 2 ^ 12) mod 64 in
   let s3 := (n / 2 ^ 6) mod 64 in
   let s4 := (n / 2 ^ 0) mod 64 in
   (s1 * 2 ^ 2 + s2 / 2 ^ 4) mod 256 = a /\
   (s2 * 2 ^ 4 + s3 / 2 ^ 2) mod 256 = b /\
   (s3 * 2 ^ 6 + s4) mod 256 = c)%N.
Proof.
  intros Ha Hb Hc. cbv zeta.
  change (2 ^ 18)%N with 262144%N. change (2 ^ 12)%N with 4096%N.
  change (2 ^ 6)%N with 64%N. change (2 ^ 0)%N with 1%N.
  change (2 ^ 2)%N with 4%N. change (2 ^ 4)%N with 16%N.
  repeat split; zify; Z.to_euclidean_division_equations; lia.
Qed.

Lemma decode_group (a b c : byte) :
  let n := group24 a b c in
  byte_of_N (N.lor (N.shiftl (sextet n 18) 2) (N.shiftr (sextet n 12) 4)) = a /\
  byte_of_N (N.lor (N.shiftl (sextet n 12) 4) (N.shiftr (sextet n 6) 2)) = b /\
  byte_of_N (N.lor (N.shiftl (sextet n 6) 6) (sextet n 0)) = c.
Proof.
  cbv zeta.
  rewrite !lor_hi_lo by (apply sextet_lt || reflexivity).
  rewrite (lor_shiftl_low _ 6) by apply sextet_lt.
  rewrite !sextet_arith, group24_arith.
  destruct (regroup (Byte.to_N a) (Byte.to_N b) (Byte.to_N c)
              (to_N_lt a) (to_N_lt b) (to_N_lt c)) as (H1 & H2 & H3).
  repeat split; apply byte_of_N_eq; assumption.
Qed.

Lemma sextets_char (n : N) (cs : list ascii) :
  (n < 64)%N -> sextets (b64_char n :: cs) = n :: sextets cs.
Proof.
  intros Hn. destruct (unbase64_b64_char n Hn) as [Hu Hp].
  unfold sextets; fold sextets. now rewrite Hp, Hu.
Qed.

Lemma sextets_pad (cs : list ascii) : sextets (pad :: cs) = [].
Proof. reflexivity. Qed.

Lemma bytes_ind3 (P : bytes -> Prop) :
  P [] -> (forall a, P [a]) -> (forall a b, P [a; b]) ->
  (forall a b c l, P l -> P (a :: b :: c :: l)) ->
  forall l, P l.
Proof.
  intros H0 H1 H2 H3.
  fix IH 1. intros [| a [| b [| c l]]].
  - exact H0.
  - apply H1.
  - apply H2.
  - apply H3, IH.
Qed.

Lemma decode_sextets_encode_chars (bs : bytes) :
  decode_sextets (sextets (encode_chars bs)) = bs.
Proof.
  induction bs as [| a | a b | a b c l IH] using bytes_ind3.
  - reflexivity.
  - cbn [encode_chars].
    rewrite !sextets_char, sextets_pad by apply sextet_lt.
    cbn [decode_sextets].
    destruct (decode_group a x00 x00) as (-> & _). reflexivity.
  - cbn [encode_chars].
    rewrite !sextets_char, sextets_pad by apply sextet_lt.
    cbn [decode_sextets].
    destruct (decode_group a b x00) as (-> & -> & _). reflexivity.
  - cbn [encode_chars].
    rewrite !sextets_char by apply sextet_lt.
    cbn [decode_sextets].
    destruct (decode_group a b c) as (-> & -> & ->).
    now rewrite IH.
Qed.

Lemma decode_encode (bs : bytes) : decode (encode bs) = bs.
Proof.
  unfold decode, encode.
  rewrite list_ascii_of_string_of_list_ascii.
  apply decode_sextets_encode_chars.
Qed.

Lemma encode_nonempty (bs : bytes) : bs <> [] -> encode bs <> EmptyString.
Proof.
  destruct bs as [| a [| b [| c l]]]; [congruence | discriminate ..].
Qed.

(** ** Running computations *)

Lemma bind_ok {A B} (m : M A) (f : A -> M B) (e e1 : entropy) (a : A)
    (c1 : list call) :
  m e = (Ok a, e1, c1) ->
  bind m f e = (outcome (f a e1), rest (f a e1), c1 ++ calls (f a e1)).
Proof.
  intros H. unfold bind. rewrite H.
  destruct (f a e1) as [[r e2] c2]. reflexivity.
Qed.

Lemma bind_err {A B} (m : M A) (f : A -> M B) (e e1 : entropy) (x : exn)
    (c1 : list call) :
  m e = (Err x, e1, c1) -> bind m f e = (Err x, e1, c1).
Proof. intros H. unfold bind. now rewrite H. Qed.

Lemma draw_length (n : nat) (e : entropy) : length (draw n e) = n.
Proof. unfold draw. now rewrite length_map, length_seq. Qed.

Lemma typed_set_ok (dst src : bytes) (offset : nat) (e : entropy) :
  offset + length src <= length dst ->
  typed_set dst src offset e =
    (Ok (firstn offset dst ++ src ++ skipn (offset + length src) dst), e, []).
Proof.
  intros H. unfold typed_set.
  apply Nat.leb_le in H. now rewrite H.
Qed.

(** The two [set] calls of [encrypt] fill the fresh array with the IV
    followed by the ciphertext. *)
Lemma combined_layout (iv ct : bytes) :
  let fresh := new_Uint8Array (length iv + length ct) in
  let c0 := firstn 0 fresh ++ iv ++ skipn (0 + length iv) fresh in
  length c0 = length iv + length ct /\
  firstn (length iv) c0 ++ ct ++ skipn (length iv + length ct) c0 = iv ++ ct.
Proof.
  cbv zeta. unfold new_Uint8Array. cbn [firstn Nat.add app].
  set (tail := skipn (length iv) (repeat x00 (length iv + length ct))).
  assert (Htail : length tail = length ct).
  { unfold tail. rewrite length_skipn, repeat_length. lia. }
  split.
  - rewrite length_app. lia.
  - rewrite firstn_app, Nat.sub_diag, firstn_all. cbn [firstn].
    rewrite app_nil_r.
    rewrite skipn_all2 by (rewrite length_app; lia).
    now rewrite app_nil_r.
Qed.

Lemma flip_bit_length (bs : bytes) (i j : nat) :
  length (flip_bit bs i j) = length bs.
Proof.
  revert i. induction bs as [| b bs IH]; intros [| i]; cbn; auto.
Qed.

Lemma flip_bit_app_r (l1 l2 : bytes) (i j : nat) :
  flip_bit (l1 ++ l2) (length l1 + i) j = l1 ++ flip_bit l2 i j.
Proof.
  induction l1 as [| b l1 IH]; cbn [length app Nat.add flip_bit].
  - reflexivity.
  - now rewrite IH.
Qed.

Lemma split_envelope (iv ct : bytes) :
  length iv = IV_LENGTH ->
  firstn IV_LENGTH (iv ++ ct) = iv /\ skipn IV_LENGTH (iv ++ ct) = ct.
Proof.
  intros H. rewrite <- H. split.
  - rewrite firstn_app, Nat.sub_diag, firstn_all. cbn [firstn].
    apply app_nil_r.
  - rewrite skipn_app, Nat.sub_diag, skipn_all. reflexivity.
Qed.

Ltac run_ok lem := erewrite bind_ok by lem; cbn [outcome rest calls fst snd].

Section Cipher.

Context {W : WebCrypto}.

Lemma encrypt_run (b : bytes) (k : EncryptionKey) (e : entropy) :
  HelixEncryption.encrypt b k e =
    (Ok (mkEncryptedData
           (draw IV_LENGTH e ++ gcm_seal (key_raw k) (draw IV_LENGTH e) b)
           (draw IV_LENGTH e)),
     advance IV_LENGTH e,
     [GetRandomValues IV_LENGTH; SubtleEncrypt k (draw IV_LENGTH e) b]).
Proof.
  unfold HelixEncryption.encrypt.
  set (iv := draw IV_LENGTH e).
  set (ct := gcm_seal (key_raw k) iv b).
  destruct (combined_layout iv ct) as [Hlen Hcat].
  run_ok ltac:(reflexivity).
  run_ok ltac:(reflexivity).
  fold iv. fold ct.
  run_ok ltac:(apply typed_set_ok; unfold new_Uint8Array;
               rewrite repeat_length; lia).
  run_ok ltac:(apply typed_set_ok; lia).
  rewrite Hcat. reflexivity.
Qed.

Lemma decrypt_run (env : bytes) (k : EncryptionKey) (e : entropy) :
  IV_LENGTH + 16 <= length env ->
  HelixEncryption.decrypt env k e =
    (match gcm_open (key_raw k) (firstn IV_LENGTH env) (skipn IV_LENGTH env) with
     | Some p => Ok p
     | None => Err OperationError
     end, e,
     [SubtleDecrypt k (firstn IV_LENGTH env) (skipn IV_LENGTH env)]).
Proof.
  intros Hlen. unfold HelixEncryption.decrypt.
  apply Nat.ltb_ge in Hlen. rewrite Hlen.
  unfold subtle_decrypt.
  run_ok ltac:(reflexivity).
  now destruct (gcm_open _ _ _).
Qed.

Lemma gcm_open_app (key iv C T : bytes) :
  length T = TAG_LENGTH -> gcm_open key iv (C ++ T) = gcm_ad key iv C T.
Proof.
  intros HT. unfold gcm_open. rewrite length_app, HT.
  replace (length C + TAG_LENGTH <? TAG_LENGTH) with false
    by (symmetry; apply Nat.ltb_ge; lia).
  replace (length C + TAG_LENGTH - TAG_LENGTH) with (length C + 0) by lia.
  rewrite firstn_app_2, skipn_app, Nat.add_0_r, skipn_all.
  replace (length C - length C) with 0 by lia.
  cbn [firstn skipn app]. now rewrite app_nil_r.
Qed.

(** What the proofs use of AES-GCM (NIST SP 800-38D): the ciphertext
    has the length of the plaintext, the tag has 128 bits, and
    authenticated decryption inverts authenticated encryption under a
    256-bit key and a 96-bit IV. *)
Hypothesis gcm_ciphertext_length : forall key iv pt,
  length (fst (gcm_ae key iv pt)) = length pt.
Hypothesis gcm_tag_length : forall key iv pt,
  length (snd (gcm_ae key iv pt)) = TAG_LENGTH.
Hypothesis gcm_ad_ae : forall key iv pt,
  length key = 32 -> length iv = IV_LENGTH ->
  gcm_ad key iv (fst (gcm_ae key iv pt)) (snd (gcm_ae key iv pt)) = Some pt.

Lemma gcm_seal_length (key iv pt : bytes) :
  length (gcm_seal key iv pt) = length pt + TAG_LENGTH.
Proof.
  unfold gcm_seal.
  pose proof (gcm_ciphertext_length key iv pt).
  pose proof (gcm_tag_length key iv pt).
  destruct (gcm_ae key iv pt) as [C T]. rewrite length_app.
  cbn [fst snd] in *. lia.
Qed.

Lemma gcm_open_seal (key iv pt : bytes) :
  length key = 32 -> length iv = IV_LENGTH ->
  gcm_open key iv (gcm_seal key iv pt) = Some pt.
Proof.
  intros Hk Hiv. unfold gcm_seal.
  pose proof (gcm_tag_length key iv pt) as HT.
  pose proof (gcm_ad_ae key iv pt Hk Hiv) as Hrt.
  destruct (gcm_ae key iv pt) as [C T]. cbn [fst snd] in *.
  now rewrite gcm_open_app.
Qed.

(** C1. Decrypting, under the same 256-bit key, the envelope that
    [encrypt] returned for a buffer gives back exactly that buffer,
    whatever the IV drawn and whenever the decryption takes place. *)
Theorem decrypt_encrypt_roundtrip (b : bytes) (k : EncryptionKey)
    (e e' : entropy) :
  length (key_raw k) = 32 ->
  exists envelope,
    outcome (HelixEncryption.encrypt b k e) = Ok envelope /\
    outcome (HelixEncryption.decrypt (data envelope) k e') = Ok b.
Proof.
  intros Hk. rewrite encrypt_run. eexists. split; [reflexivity |].
  cbn [data].
  pose proof (draw_length IV_LENGTH e) as Hiv.
  destruct (split_envelope (draw IV_LENGTH e)
              (gcm_seal (key_raw k) (draw IV_LENGTH e) b) Hiv) as [Hf Hs].
  rewrite decrypt_run
    by (rewrite length_app, gcm_seal_length, Hiv; unfold TAG_LENGTH; lia).
  rewrite Hf, Hs. now rewrite gcm_open_seal.
Qed.

(** C2. The envelope returned by [encrypt] is the 12 bytes drawn for
    this call, then the ciphertext, then the 16-byte tag, and is 28
    bytes longer than the plaintext; [decrypt] reads an envelope of
    this shape as IV, ciphertext and tag in that order. *)
Theorem envelope_layout (b : bytes) (k : EncryptionKey) (e : entropy) :
  (exists C T,
     gcm_ae (key_raw k) (draw IV_LENGTH e) b = (C, T) /\
     HelixEncryption.encrypt b k e =
       (Ok (mkEncryptedData (draw IV_LENGTH e ++ C ++ T) (draw IV_LENGTH e)),
        advance IV_LENGTH e,
        [GetRandomValues IV_LENGTH; SubtleEncrypt k (draw IV_LENGTH e) b]) /\
     length (draw IV_LENGTH e) = 12 /\
     length C = length b /\
     length T = 16 /\
     length (draw IV_LENGTH e ++ C ++ T) = length b + 28) /\
  (forall (iv0 C T : bytes) (k0 : EncryptionKey) (e0 : entropy),
     length iv0 = 12 -> length T = 16 ->
     HelixEncryption.decrypt (iv0 ++ C ++ T) k0 e0 =
       (match gcm_ad (key_raw k0) iv0 C T with
        | Some p => Ok p
        | None => Err AuthenticationFailure
        end, e0, [SubtleDecrypt k0 iv0 (C ++ T)])).
Proof.
  split.
  - pose proof (gcm_ciphertext_length (key_raw k) (draw IV_LENGTH e) b) as HC.
    pose proof (gcm_tag_length (key_raw k) (draw IV_LENGTH e) b) as HT.
    rewrite encrypt_run. unfold gcm_seal.
    destruct (gcm_ae (key_raw k) (draw IV_LENGTH e) b) as [C T].
    cbn [fst snd] in HC, HT. exists C, T.
    repeat split; auto using draw_length.
    rewrite !length_app, draw_length, HC, HT.
    unfold IV_LENGTH, TAG_LENGTH. lia.
  - intros iv0 C T k0 e0 Hiv HT.
    destruct (split_envelope iv0 (C ++ T) Hiv) as [Hf Hs].
    rewrite decrypt_run
      by (rewrite !length_app, Hiv, HT; unfold IV_LENGTH; lia).
    rewrite Hf, Hs. now rewrite gcm_open_app.
Qed.

(** C5. A buffer of fewer than 28 bytes is refused with
    [InvalidEnvelope], and no call is made: the cipher is not reached
    and no entropy is used. *)
Theorem decrypt_short_envelope (env : bytes) (k : EncryptionKey)
    (e : entropy) :
  length env < 28 ->
  HelixEncryption.decrypt env k e = (Err InvalidEnvelope, e, []).
Proof.
  intros H. unfold HelixEncryption.decrypt.
  replace (length env <? IV_LENGTH + 16) with true
    by (symmetry; apply Nat.ltb_lt; exact H).
  reflexivity.
Qed.

(** The integrity guarantee of the AEAD, in the form the tamper test
    needs it: a ciphertext-with-tag that authenticates no longer does
    once one of its bits is inverted. *)
Hypothesis gcm_single_bit : forall key iv ct p i j,
  gcm_open key iv ct = Some p ->
  i < length ct -> j < 8 ->
  gcm_open key iv (flip_bit ct i j) = None.

(** C4. With one bit inverted anywhere after the IV (ciphertext or
    tag), the envelope is still long enough to reach the cipher, the IV
    handed over is the original one, and the call fails with
    [AuthenticationFailure]; no plaintext comes back. *)
Theorem decrypt_tampered_envelope (b : bytes) (k : EncryptionKey)
    (e e' : entropy) (envelope : EncryptedData) (i j : nat) :
  length (key_raw k) = 32 ->
  outcome (HelixEncryption.encrypt b k e) = Ok envelope ->
  IV_LENGTH <= i < length (data envelope) -> j < 8 ->
  outcome (HelixEncryption.decrypt (flip_bit (data envelope) i j) k e')
    = Err AuthenticationFailure /\
  calls (HelixEncryption.decrypt (flip_bit (data envelope) i j) k e')
    = [SubtleDecrypt k (iv envelope)
         (flip_bit (skipn IV_LENGTH (data envelope)) (i - IV_LENGTH) j)].
Proof.
  intros Hk Henc Hi Hj. rewrite encrypt_run in Henc.
  set (v := draw IV_LENGTH e) in *.
  set (ct := gcm_seal (key_raw k) v b) in *.
  assert (Hen : envelope = mkEncryptedData (v ++ ct) v)
    by (unfold outcome in Henc; cbn [fst] in Henc; congruence).
  subst envelope. clear Henc. cbn [data iv] in *.
  assert (Hv : length v = IV_LENGTH) by apply draw_length.
  assert (Hct : length ct = length b + TAG_LENGTH) by apply gcm_seal_length.
  rewrite length_app in Hi.
  replace i with (length v + (i - IV_LENGTH)) at 1 2 by lia.
  rewrite flip_bit_app_r.
  destruct (split_envelope v (flip_bit ct (i - IV_LENGTH) j) Hv) as [Hf Hs].
  destruct (split_envelope v ct Hv) as [_ Hs'].
  rewrite decrypt_run
    by (rewrite length_app, flip_bit_length, Hv, Hct;
        unfold TAG_LENGTH; lia).
  rewrite Hf, Hs, Hs'.
  rewrite (gcm_single_bit (key_raw k) v ct b)
    by first [apply gcm_open_seal; assumption | lia].
  split; reflexivity.
Qed.

Hypothesis pbkdf2_length : forall password salt iterations bits,
  length (pbkdf2_hmac_sha256 password salt iterations bits)
    = N.to_nat (bits / 8).

(** C9. [deriveKey] uses no entropy: its result is the PBKDF2 output
    for the password and the salt, 32 bytes long, whatever the state of
    the random source; the derivation is requested with 100000
    iterations and 256 bits.  [generateSalt] is the next 16 bytes of
    the random source. *)
Theorem deriveKey_deterministic (password : string) (salt : bytes)
    (e1 e2 : entropy) :
  outcome (HelixEncryption.deriveKey password salt e1)
    = outcome (HelixEncryption.deriveKey password salt e2) /\
  (exists key,
     outcome (HelixEncryption.deriveKey password salt e1) = Ok key /\
     key_raw key
       = pbkdf2_hmac_sha256 (utf8_encode password) salt 100000 256 /\
     length (key_raw key) = 32) /\
  rest (HelixEncryption.deriveKey password salt e1) = e1 /\
  (forall pw s iterations bits,
     In (SubtleDeriveKey pw s iterations bits)
        (calls (HelixEncryption.deriveKey password salt e1)) ->
     (100000 <= iterations)%N /\ bits = 256%N) /\
  HelixEncryption.generateSalt e1
    = (Ok (draw 16 e1), advance 16 e1, [GetRandomValues 16]) /\
  length (draw 16 e1) = 16.
Proof.
  split; [reflexivity |].
  split.
  { eexists. split; [reflexivity |]. split; [reflexivity |].
    cbn [key_raw]. now rewrite pbkdf2_length. }
  split; [reflexivity |].
  split.
  { intros pw s iterations bits [H | []].
    injection H as _ _ <- <-. split; [lia | reflexivity]. }
  split; [reflexivity | apply draw_length].
Qed.

End Cipher.

(** ** Keys *)

Lemma subtle_importKey_32 (raw : bytes) (e : entropy) :
  length raw = 32 ->
  subtle_importKey raw e = (Ok (mkKey raw), e, [SubtleImportKey raw]).
Proof.
  intros H. unfold subtle_importKey.
  run_ok ltac:(reflexivity). now rewrite H.
Qed.

Lemma importKey_run (s : string) (e : entropy) :
  HelixEncryption.importKey s e =
    if length (Base64.decode s) =? 32
    then (Ok (mkKey (Base64.decode s)), e, [SubtleImportKey (Base64.decode s)])
    else (Err InvalidKeyLength, e, []).
Proof.
  unfold HelixEncryption.importKey.
  destruct (length (Base64.decode s) =? 32) eqn:H; cbn [negb].
  - apply Nat.eqb_eq in H. now apply subtle_importKey_32.
  - reflexivity.
Qed.


(** C8. Exporting a 256-bit key and importing the exported string gives
    back the same key: the same 32 raw bytes. *)
Theorem importKey_exportKey (k : EncryptionKey) (e e' : entropy) :
  length (key_raw k) = 32 ->
  exists s,
    outcome (HelixEncryption.exportKey k e) = Ok s /\
    outcome (HelixEncryption.importKey s e') = Ok k /\
    Base64.decode s = key_raw k.
Proof.
  intros Hk. exists (Base64.encode (key_raw k)).
  split; [reflexivity |].
  rewrite importKey_run, decode_encode, Hk.
  destruct k as [raw]. split; reflexivity.
Qed.


(** ** The upload pipeline *)

Lemma bind_run {A B} (m : M A) (f : A -> M B) (e e1 : entropy)
    (r : result A) (c1 : list call) :
  m e = (r, e1, c1) ->
  bind m f e =
    match r with
    | Ok a => (outcome (f a e1), rest (f a e1), c1 ++ calls (f a e1))
    | Err x => (Err x, e1, c1)
    end.
Proof.
  intros H. destruct r; [now apply bind_ok | now apply bind_err].
Qed.

Lemma emit_settle {A} (c : call) (r : result A) (e : entropy) :
  (emit c ;;; settle r) e = (r, e, [c]).
Proof. now destruct r. Qed.

Lemma truthy_encode (raw : bytes) :
  raw <> [] -> truthy (Some (Base64.encode raw)) = true.
Proof.
  intros H. cbn [truthy]. apply negb_true_iff, String.eqb_neq.
  now apply encode_nonempty.
Qed.

Section Upload.

Context {W : WebCrypto} {B : Backend}.

Lemma uploadToArweave_run (payload : bytes) (mime : string)
    (w : option WalletAdapter) (e : entropy) :
  HelixFiles.uploadToArweave payload mime w e =
    (irys_upload w payload (upload_tags mime), e,
     [IrysUpload payload (upload_tags mime)]).
Proof. apply emit_settle. Qed.

Lemma create_run (tok : option string) (params : CreateFileParams)
    (e : entropy) :
  HelixFiles.create tok params e =
    (files_create tok params, e, [FilesCreate tok params]).
Proof. apply emit_settle. Qed.

(** The first phase of an encrypting upload: a fresh key, the envelope
    of the file, and the exported key. *)
Lemma encrypt_phase_run (file : bytes) (e : entropy) :
  let key := mkKey (draw 32 e) in
  let e1 := advance 32 e in
  (key <- HelixEncryption.generateKey ;;
   encrypted <- HelixEncryption.encrypt file key ;;
   exported <- HelixEncryption.exportKey key ;;
   ret (data encrypted, Some exported)) e =
    (Ok (draw IV_LENGTH e1 ++ gcm_seal (draw 32 e) (draw IV_LENGTH e1) file,
         Some (Base64.encode (draw 32 e))),
     advance IV_LENGTH e1,
     [SubtleGenerateKey 256; GetRandomValues IV_LENGTH;
      SubtleEncrypt key (draw IV_LENGTH e1) file; SubtleExportKey key]).
Proof.
  cbv zeta.
  assert (Hg : HelixEncryption.generateKey e =
               (Ok (mkKey (draw 32 e)), advance 32 e, [SubtleGenerateKey 256]))
    by reflexivity.
  run_ok ltac:(exact Hg).
  run_ok ltac:(apply encrypt_run).
  run_ok ltac:(reflexivity).
  reflexivity.
Qed.

(** The name is encrypted under the re-imported key. *)
Lemma name_phase_run (raw : bytes) (fileName : string) (e : entropy) :
  length raw = 32 ->
  (if truthy (Some (Base64.encode raw)) then
     match Some (Base64.encode raw) with
     | Some keyString =>
         nameKey <- HelixEncryption.importKey keyString ;;
         let nameBytes := utf8_encode fileName in
         encryptedNameData <- HelixEncryption.encrypt nameBytes nameKey ;;
         ret (Some (Base64.encode (data encryptedNameData)))
     | None => ret None
     end
   else ret None) e =
    (Ok (Some (Base64.encode
                 (draw IV_LENGTH e ++
                  gcm_seal raw (draw IV_LENGTH e) (utf8_encode fileName)))),
     advance IV_LENGTH e,
     [SubtleImportKey raw; GetRandomValues IV_LENGTH;
      SubtleEncrypt (mkKey raw) (draw IV_LENGTH e) (utf8_encode fileName)]).
Proof.
  intros Hraw.
  rewrite truthy_encode by (intros ->; discriminate).
  assert (Hi : HelixEncryption.importKey (Base64.encode raw) e =
               (Ok (mkKey raw), e, [SubtleImportKey raw])).
  { rewrite importKey_run, decode_encode, Hraw. reflexivity. }
  run_ok ltac:(exact Hi).
  run_ok ltac:(apply encrypt_run).
  reflexivity.
Qed.

Lemma uploadFile_plain_run (this : HelixClient) (file : bytes)
    (options : UploadOptions) (e : entropy) (tok : string) :
  authToken this = Some tok ->
  encrypt_opt options = Some false ->
  let tags := upload_tags (mimeType options) in
  uploadFile this file options e =
    match irys_upload (wallet this) file tags with
    | Err x => (Err x, e, [IrysUpload file tags])
    | Ok tx =>
        let params :=
          mkCreateFileParams tx None (mimeType options) (length file) false in
        let trace := [IrysUpload file tags; FilesCreate (Some tok) params] in
        match files_create (Some tok) params with
        | Err x => (Err x, e, trace)
        | Ok _ =>
            (Ok (mkUploadResult tx None ("https://arweave.net/" ++ tx)%string),
             e, trace)
        end
    end.
Proof.
  intros Htok Hopt. cbv zeta.
  unfold uploadFile, isAuthenticated, encrypt_enabled.
  rewrite Htok, Hopt. cbn [negb].
  run_ok ltac:(reflexivity).
  erewrite bind_run by apply uploadToArweave_run.
  destruct (irys_upload _ _ _) as [tx | x]; [| reflexivity].
  cbn [truthy].
  run_ok ltac:(reflexivity).
  erewrite bind_run by apply create_run.
  destruct (files_create _ _) as [rec | x]; reflexivity.
Qed.

Lemma uploadFile_encrypted_run (this : HelixClient) (file : bytes)
    (options : UploadOptions) (e : entropy) (tok : string) :
  authToken this = Some tok ->
  encrypt_opt options <> Some false ->
  let tags := upload_tags (mimeType options) in
  let raw := draw 32 e in
  let key := mkKey raw in
  let e1 := advance 32 e in
  let iv1 := draw IV_LENGTH e1 in
  let e2 := advance IV_LENGTH e1 in
  let envelope := iv1 ++ gcm_seal raw iv1 file in
  let pre := [SubtleGenerateKey 256; GetRandomValues IV_LENGTH;
              SubtleEncrypt key iv1 file; SubtleExportKey key;
              IrysUpload envelope tags] in
  uploadFile this file options e =
    match irys_upload (wallet this) envelope tags with
    | Err x => (Err x, e2, pre)
    | Ok tx =>
        let iv2 := draw IV_LENGTH e2 in
        let nameBytes := utf8_encode (name options) in
        let params :=
          mkCreateFileParams tx
            (Some (Base64.encode (iv2 ++ gcm_seal raw iv2 nameBytes)))
            (mimeType options) (length file) true in
        let trace :=
          pre ++ [SubtleImportKey raw; GetRandomValues IV_LENGTH;
                  SubtleEncrypt key iv2 nameBytes;
                  FilesCreate (Some tok) params] in
        match files_create (Some tok) params with
        | Err x => (Err x, advance IV_LENGTH e2, trace)
        | Ok _ =>
            (Ok (mkUploadResult tx (Some (Base64.encode raw))
                   ("https://arweave.net/" ++ tx)%string),
             advance IV_LENGTH e2, trace)
        end
    end.
Proof.
  intros Htok Hopt. cbv zeta.
  assert (Hen : encrypt_enabled options = true).
  { unfold encrypt_enabled.
    destruct (encrypt_opt options) as [[|]|]; congruence. }
  unfold uploadFile, isAuthenticated.
  rewrite Htok, Hen. cbn [negb].
  run_ok ltac:(apply encrypt_phase_run).
  erewrite bind_run by apply uploadToArweave_run.
  destruct (irys_upload _ _ _) as [tx | x]; [| reflexivity].
  run_ok ltac:(apply name_phase_run; apply draw_length).
  erewrite bind_run by apply create_run.
  destruct (files_create _ _) as [rec | x]; reflexivity.
Qed.

Lemma encrypt_opt_cases (options : UploadOptions) :
  encrypt_opt options = Some false \/ encrypt_opt options <> Some false.
Proof.
  destruct (encrypt_opt options) as [[|]|];
    [right | left | right]; congruence.
Qed.

(** C3, as the code has it.  Without a token the call fails with
    [NotAuthenticated] before anything else happens: no call is made,
    the transport is not reached.  With a token, whatever it is, the
    upload goes on to the transport; its expiry is not looked at. *)
Theorem uploadFile_token_gate (this : HelixClient) (file : bytes)
    (options : UploadOptions) (e : entropy) :
  (authToken this = None ->
   uploadFile this file options e = (Err NotAuthenticated, e, [])) /\
  (forall tok, authToken this = Some tok ->
   existsb is_transport_call (calls (uploadFile this file options e))
     = true).
Proof.
  split.
  - intros H. unfold uploadFile, isAuthenticated. now rewrite H.
  - intros tok Htok.
    destruct (encrypt_opt_cases options) as [Hopt | Hopt].
    + rewrite (uploadFile_plain_run this file options e tok Htok Hopt).
      cbv zeta. destruct (irys_upload _ _ _) as [tx | x]; [| reflexivity].
      destruct (files_create _ _); reflexivity.
    + rewrite (uploadFile_encrypted_run this file options e tok Htok Hopt).
      cbv zeta. destruct (irys_upload _ _ _) as [tx | x]; [| reflexivity].
      destruct (files_create _ _); reflexivity.
Qed.

(** C7. Past the token check, the file is encrypted exactly when
    [options.encrypt] is not [false].  A call that returns a result
    returns the exported key of the freshly generated key exactly in
    that case, and the record it registered carries the same condition
    as its [isEncrypted] flag. *)
Theorem uploadFile_encryption_flag (this : HelixClient) (file : bytes)
    (options : UploadOptions) (e : entropy) :
  let run := uploadFile this file options e in
  let enabled := encrypt_opt options <> Some false in
  (authToken this <> None ->
   ((exists key iv, In (SubtleEncrypt key iv file) (calls run)) <-> enabled)) /\
  (forall res, outcome run = Ok res ->
     (encryptionKey res <> None <-> enabled) /\
     (enabled -> encryptionKey res = Some (Base64.encode (draw 32 e))) /\
     (exists bearer params, In (FilesCreate bearer params) (calls run)) /\
     (forall bearer params,
        In (FilesCreate bearer params) (calls run) ->
        (cf_isEncrypted params = true <-> enabled))).
Proof.
  cbv zeta.
  destruct (authToken this) as [tok |] eqn:Htok.
  2:{ split; [congruence |].
      intros res. unfold uploadFile, isAuthenticated. rewrite Htok.
      discriminate. }
  destruct (encrypt_opt_cases options) as [Hopt | Hopt].
  - rewrite (uploadFile_plain_run this file options e tok Htok Hopt).
    cbv zeta. split.
    + intros _. split; [| congruence].
      intros (key & v & Hin). exfalso.
      destruct (irys_upload _ _ _) as [tx | x].
      * destruct (files_create _ _); cbn in Hin;
          intuition discriminate.
      * cbn in Hin. intuition discriminate.
    + intros res Hres.
      destruct (irys_upload _ _ _) as [tx | x]; [| discriminate].
      destruct (files_create _ _) as [rec | x]; [| discriminate].
      unfold outcome in Hres; cbn [fst] in Hres.
      injection Hres as <-. cbn [encryptionKey calls snd].
      split; [split; congruence |].
      split; [congruence |].
      split; [eexists _, _; right; left; reflexivity |].
      intros bearer params Hin. cbn [In] in Hin.
      destruct Hin as [Hin | [Hin | []]]; [discriminate |].
      injection Hin as _ <-. cbn [cf_isEncrypted]. split; congruence.
  - rewrite (uploadFile_encrypted_run this file options e tok Htok Hopt).
    cbv zeta. split.
    + intros _. split; [intros _; exact Hopt |].
      intros _. exists (mkKey (draw 32 e)), (draw IV_LENGTH (advance 32 e)).
      destruct (irys_upload _ _ _) as [tx | x].
      * destruct (files_create _ _); cbn [calls snd];
          apply in_or_app; left; right; right; left; reflexivity.
      * cbn [calls snd]. right; right; left; reflexivity.
    + intros res Hres.
      destruct (irys_upload _ _ _) as [tx | x]; [| discriminate].
      destruct (files_create _ _) as [rec | x]; [| discriminate].
      unfold outcome in Hres; cbn [fst] in Hres.
      assert (Hr : res = mkUploadResult tx (Some (Base64.encode (draw 32 e)))
                           ("https://arweave.net/" ++ tx)%string)
        by congruence.
      subst res. cbn [encryptionKey calls snd].
      split; [split; [intros _; exact Hopt | discriminate] |].
      split; [reflexivity |].
      split.
      * eexists _, _. apply in_or_app. right. do 3 right. left. reflexivity.
      * intros bearer params Hin. cbn [app In] in Hin.
        repeat (destruct Hin as [Hin | Hin]; [try discriminate |]);
          [| contradiction].
        injection Hin as _ <-. cbn [cf_isEncrypted]. split; auto.
Qed.

End Upload.

(** ** The sample platform meets the hypotheses *)

Module SampleFacts.

Import Sample.

Lemma to_N_byte_of_N (n : N) : Byte.to_N (byte_of_N n) = (n mod 256)%N.
Proof.
  unfold byte_of_N.
  assert (Hlt : (n mod 256 < 256)%N) by (apply N.mod_lt; discriminate).
  destruct (Byte.of_N (n mod 256)) as [b |] eqn:Hb.
  - now apply Byte.to_of_N.
  - apply Byte.of_N_None_iff in Hb. lia.
Qed.

Lemma unmask_mask (key : bytes) (b : byte) : unmask key (mask key b) = b.
Proof.
  unfold unmask, mask. apply byte_of_N_eq.
  rewrite to_N_byte_of_N.
  pose proof (to_N_lt b). pose proof (to_N_lt (hd x00 key)).
  zify; Z.to_euclidean_division_equations; lia.
Qed.

Lemma bytes_eqb_eq (a b : bytes) : bytes_eqb a b = true <-> a = b.
Proof.
  unfold bytes_eqb. destruct (list_eq_dec _ a b); split; congruence.
Qed.

Lemma tag_length (key v ct : bytes) : length (tag key v ct) = TAG_LENGTH.
Proof. reflexivity. Qed.

Lemma ae_ciphertext_length (key v pt : bytes) :
  length (fst (gcm_ae (WebCrypto := crypto) key v pt)) = length pt.
Proof. cbn. apply length_map. Qed.

Lemma ae_tag_length (key v pt : bytes) :
  length (snd (gcm_ae (WebCrypto := crypto) key v pt)) = TAG_LENGTH.
Proof. reflexivity. Qed.

Lemma ad_ae (key v pt : bytes) :
  length key = 32 -> length v = IV_LENGTH ->
  gcm_ad (WebCrypto := crypto) key v
    (fst (gcm_ae (WebCrypto := crypto) key v pt))
    (snd (gcm_ae (WebCrypto := crypto) key v pt)) = Some pt.
Proof.
  intros _ _. change (ad key v (map (mask key) pt)
                        (tag key v (map (mask key) pt)) = Some pt).
  unfold ad.
  rewrite (proj2 (bytes_eqb_eq _ _) eq_refl).
  rewrite map_map. f_equal.
  rewrite <- (map_id pt) at 2. apply map_ext, unmask_mask.
Qed.

Lemma kdf_length (password salt : bytes) (iterations bits : N) :
  length (pbkdf2_hmac_sha256 (WebCrypto := crypto) password salt
            iterations bits) = N.to_nat (bits / 8).
Proof. cbn. unfold kdf. now rewrite length_map, length_seq. Qed.

(** Inverting a bit changes the byte: checked on all 256 bytes and 8
    bit positions. *)
Lemma flip_byte_neq (b : byte) (j : nat) : j < 8 -> flip_byte b j <> b.
Proof.
  intros Hj.
  assert (Hall : forallb (fun n =>
                   forallb (fun j => negb (Byte.eqb
                              (flip_byte (byte_of_N (N.of_nat n)) j)
                              (byte_of_N (N.of_nat n))))
                           (seq 0 8))
                 (seq 0 256) = true) by (vm_compute; reflexivity).
  pose proof (to_N_lt b) as Hb.
  rewrite forallb_forall in Hall.
  specialize (Hall (N.to_nat (Byte.to_N b)) ltac:(apply in_seq; lia)).
  rewrite N2Nat.id, byte_of_to_N in Hall.
  rewrite forallb_forall in Hall.
  specialize (Hall j ltac:(apply in_seq; lia)).
  apply negb_true_iff in Hall. now apply Byte.eqb_false.
Qed.

Lemma checksum_lt (bs : bytes) : (checksum bs < 256)%N.
Proof.
  destruct bs; cbn; [reflexivity | apply N.mod_lt; discriminate].
Qed.

Lemma to_N_inj (a b : byte) : Byte.to_N a = Byte.to_N b -> a = b.
Proof.
  intros H. rewrite <- (byte_of_to_N a), <- (byte_of_to_N b). now rewrite H.
Qed.

(** The checksum notices every inverted bit. *)
Lemma checksum_flip (bs : bytes) (i j : nat) :
  i < length bs -> j < 8 -> checksum (flip_bit bs i j) <> checksum bs.
Proof.
  revert i. induction bs as [| b bs IH]; intros i Hi Hj; [cbn in Hi; lia |].
  destruct i as [| i]; cbn [flip_bit checksum fold_right].
  - fold (checksum bs).
    pose proof (flip_byte_neq b j Hj) as Hne.
    assert (Hn : Byte.to_N (flip_byte b j) <> Byte.to_N b)
      by (intros H; now apply Hne, to_N_inj).
    pose proof (to_N_lt b). pose proof (to_N_lt (flip_byte b j)).
    pose proof (checksum_lt bs).
    zify; Z.to_euclidean_division_equations; lia.
  - fold (checksum bs). fold (checksum (flip_bit bs i j)).
    specialize (IH i ltac:(cbn in Hi; lia) Hj).
    pose proof (checksum_lt bs). pose proof (checksum_lt (flip_bit bs i j)).
    pose proof (to_N_lt b).
    zify; Z.to_euclidean_division_equations; lia.
Qed.

Lemma flip_bit_neq (bs : bytes) (i j : nat) :
  i < length bs -> j < 8 -> flip_bit bs i j <> bs.
Proof.
  intros Hi Hj Heq. apply (checksum_flip bs i j Hi Hj). now rewrite Heq.
Qed.

Lemma flip_bit_app_l (l1 l2 : bytes) (i j : nat) :
  i < length l1 -> flip_bit (l1 ++ l2) i j = flip_bit l1 i j ++ l2.
Proof.
  revert i. induction l1 as [| b l1 IH]; intros i Hi; [cbn in Hi; lia |].
  destruct i as [| i]; cbn [app flip_bit]; [reflexivity |].
  rewrite IH by (cbn in Hi; lia). reflexivity.
Qed.

Lemma tag_flip (key v ct : bytes) (i j : nat) :
  i < length ct -> j < 8 -> tag key v (flip_bit ct i j) <> tag key v ct.
Proof.
  intros Hi Hj H. unfold tag in H. injection H as H.
  apply (checksum_flip ct i j Hi Hj).
  apply (f_equal Byte.to_N) in H. rewrite !to_N_byte_of_N in H.
  rewrite !N.mod_small in H by apply checksum_lt. exact H.
Qed.

Lemma open_single_bit (key v ct p : bytes) (i j : nat) :
  gcm_open (W := crypto) key v ct = Some p ->
  i < length ct -> j < 8 ->
  gcm_open (W := crypto) key v (flip_bit ct i j) = None.
Proof.
  unfold gcm_open. rewrite flip_bit_length.
  destruct (length ct <? TAG_LENGTH) eqn:Hlen; [discriminate |].
  apply Nat.ltb_ge in Hlen.
  set (n := length ct - TAG_LENGTH).
  intros Hopen Hi Hj.
  change (ad key v (firstn n ct) (skipn n ct) = Some p) in Hopen.
  change (ad key v (firstn n (flip_bit ct i j)) (skipn n (flip_bit ct i j))
          = None).
  unfold ad in *.
  destruct (bytes_eqb (skipn n ct) _) eqn:Htag in Hopen; [| discriminate].
  apply bytes_eqb_eq in Htag.
  assert (HC : length (firstn n ct) = n)
    by (rewrite length_firstn; unfold n; lia).
  assert (HT : length (skipn n ct) = TAG_LENGTH)
    by (rewrite length_skipn; unfold n; lia).
  pose proof (firstn_skipn n ct) as Hsplit.
  set (C := firstn n ct) in *. set (T := skipn n ct) in *.
  assert (Hcut : forall C' T' : bytes, length C' = n ->
            firstn n (C' ++ T') = C' /\ skipn n (C' ++ T') = T').
  { intros C' T' <-. split.
    - rewrite firstn_app, Nat.sub_diag, firstn_all. cbn [firstn].
      apply app_nil_r.
    - rewrite skipn_app, Nat.sub_diag, skipn_all. reflexivity. }
  rewrite <- Hsplit.
  destruct (Nat.lt_ge_cases i n) as [Hin | Hin].
  - rewrite flip_bit_app_l by lia.
    destruct (Hcut (flip_bit C i j) T) as [-> ->];
      [now rewrite flip_bit_length |].
    destruct (bytes_eqb _ _) eqn:Hb; [| reflexivity].
    apply bytes_eqb_eq in Hb. exfalso.
    apply (tag_flip key v C i j); [lia | exact Hj | congruence].
  - replace i with (length C + (i - n)) by lia.
    rewrite flip_bit_app_r.
    destruct (Hcut C (flip_bit T (i - n) j)) as [-> ->]; [exact HC |].
    destruct (bytes_eqb _ _) eqn:Hb; [| reflexivity].
    apply bytes_eqb_eq in Hb. exfalso.
    apply (flip_bit_neq T (i - n) j); [lia | exact Hj | congruence].
Qed.

End SampleFacts.

(** ** The statements at work on the sample platform *)

Lemma decrypt_encrypt_roundtrip_witness :
  length (key_raw Sample.key32) = 32 /\
  exists envelope,
    outcome (HelixEncryption.encrypt (W := Sample.crypto)
               Sample.hello Sample.key32 Sample.counter) = Ok envelope /\
    outcome (HelixEncryption.decrypt (W := Sample.crypto)
               (data envelope) Sample.key32 Sample.counter) = Ok Sample.hello.
Proof.
  split; [reflexivity |].
  apply (@decrypt_encrypt_roundtrip Sample.crypto
           SampleFacts.ae_ciphertext_length SampleFacts.ae_tag_length
           SampleFacts.ad_ae).
  reflexivity.
Defined.

Lemma envelope_layout_witness :
  exists C T,
    gcm_ae (WebCrypto := Sample.crypto) (key_raw Sample.key32)
      (draw IV_LENGTH Sample.counter) Sample.hello = (C, T) /\
    outcome (HelixEncryption.encrypt (W := Sample.crypto)
               Sample.hello Sample.key32 Sample.counter)
      = Ok (mkEncryptedData (draw IV_LENGTH Sample.counter ++ C ++ T)
              (draw IV_LENGTH Sample.counter)) /\
    length (draw IV_LENGTH Sample.counter ++ C ++ T) = length Sample.hello + 28.
Proof.
  destruct (proj1 (@envelope_layout Sample.crypto
                     SampleFacts.ae_ciphertext_length SampleFacts.ae_tag_length
                     Sample.hello Sample.key32 Sample.counter))
    as (C & T & Hae & Hrun & _ & _ & _ & Hlen).
  exists C, T. split; [exact Hae |]. split; [| exact Hlen].
  now rewrite Hrun.
Defined.

Lemma decrypt_short_envelope_witness :
  length [x00; x01; x02] < 28 /\
  HelixEncryption.decrypt (W := Sample.crypto) [x00; x01; x02]
    Sample.key32 Sample.counter = (Err InvalidEnvelope, Sample.counter, []).
Proof.
  split; [cbn; lia |].
  apply (@decrypt_short_envelope Sample.crypto). cbn; lia.
Defined.

Lemma decrypt_tampered_envelope_witness :
  outcome (HelixEncryption.decrypt (W := Sample.crypto)
             (flip_bit (data Sample.envelope) 13 0) Sample.key32
             Sample.counter) = Err AuthenticationFailure.
Proof.
  apply (@decrypt_tampered_envelope Sample.crypto
           SampleFacts.ae_ciphertext_length SampleFacts.ae_tag_length
           SampleFacts.ad_ae SampleFacts.open_single_bit
           Sample.hello Sample.key32 Sample.counter Sample.counter
           Sample.envelope 13 0).
  - reflexivity.
  - reflexivity.
  - vm_compute. lia.
  - lia.
Defined.

Lemma deriveKey_deterministic_witness :
  outcome (HelixEncryption.deriveKey (W := Sample.crypto) "secret"
             (draw 16 Sample.counter) Sample.counter)
  = outcome (HelixEncryption.deriveKey (W := Sample.crypto) "secret"
               (draw 16 Sample.counter) (advance 7 Sample.counter)).
Proof.
  apply (@deriveKey_deterministic Sample.crypto SampleFacts.kdf_length).
Defined.


Lemma importKey_exportKey_witness :
  length (key_raw Sample.key32) = 32 /\
  exists s,
    outcome (HelixEncryption.exportKey Sample.key32 Sample.counter) = Ok s /\
    outcome (HelixEncryption.importKey s Sample.counter) = Ok Sample.key32 /\
    Base64.decode s = key_raw Sample.key32.
Proof.
  split; [reflexivity |].
  apply (importKey_exportKey Sample.key32 Sample.counter Sample.counter).
  reflexivity.
Defined.

Lemma uploadFile_token_gate_witness :
  uploadFile (W := Sample.crypto) (B := Sample.backend)
    (mkClient (Some Sample.signer) None) Sample.hello Sample.defaults
    Sample.counter = (Err NotAuthenticated, Sample.counter, []) /\
  existsb is_transport_call
    (calls (uploadFile (W := Sample.crypto) (B := Sample.backend)
              Sample.client Sample.hello Sample.defaults Sample.counter))
    = true.
Proof.
  split.
  - apply (proj1 (@uploadFile_token_gate Sample.crypto Sample.backend
                    (mkClient (Some Sample.signer) None) Sample.hello
                    Sample.defaults Sample.counter)).
    reflexivity.
  - apply (proj2 (@uploadFile_token_gate Sample.crypto Sample.backend
                    Sample.client Sample.hello Sample.defaults Sample.counter)
             "jwt").
    reflexivity.
Defined.

Lemma uploadFile_encryption_flag_witness :
  let run := uploadFile (W := Sample.crypto) (B := Sample.backend)
               Sample.client Sample.hello Sample.defaults Sample.counter in
  ((exists key iv, In (SubtleEncrypt key iv Sample.hello) (calls run))
   <-> encrypt_opt Sample.defaults <> Some false) /\
  exists res,
    outcome run = Ok res /\
    (encryptionKey res <> None <-> encrypt_opt Sample.defaults <> Some false).
Proof.
  cbv zeta.
  pose proof (@uploadFile_encryption_flag Sample.crypto Sample.backend
                Sample.client Sample.hello Sample.defaults Sample.counter)
    as [Hcalls Hres].
  split.
  - apply Hcalls. discriminate.
  - eexists. split; [vm_compute; reflexivity |].
    eapply Hres. vm_compute; reflexivity.
Defined.

(** C3, as the spec states it, fails.  The client signs in; the sample
    service answers every sign-in with [Sample.session], a token that
    expires at instant 1000, and the client keeps the token string only.
    At instant 2000 the token has expired, yet [uploadFile] does not fail
    with [NotAuthenticated]: it encrypts the file and calls the
    transport. *)
Lemma uploadFile_expired_token_proceeds :
  let now := 2000%Z in
  let run := uploadFile (W := Sample.crypto) (B := Sample.backend)
               Sample.client Sample.hello Sample.defaults Sample.counter in
  outcome (authenticate (B := Sample.backend)
             (mkClient (Some Sample.signer) None) Sample.counter)
    = Ok (token Sample.session, Sample.client) /\
  token_expired Sample.session now = true /\
  outcome run <> Err NotAuthenticated /\
  existsb is_transport_call (calls run) = true.
Proof.
  cbv zeta. repeat split.
  vm_compute. discriminate.
Qed.

(** * Further properties *)

(** ** Keys passed as strings *)

Lemma standalone_importKey_run (s : string) (e : entropy) :
  importKey s e =
    (if aes_key_length (length (Base64.decode s))
     then Ok (mkKey (Base64.decode s)) else Err DataError,
     e, [SubtleImportKey (Base64.decode s)]).
Proof.
  unfold importKey, subtle_importKey, aes_key_length.
  run_ok ltac:(reflexivity). now destruct (_ || _).
Qed.

Lemma gcm_open_short {W : WebCrypto} (key v ct : bytes) :
  length ct < TAG_LENGTH -> gcm_open key v ct = None.
Proof.
  intros H. unfold gcm_open. apply Nat.ltb_lt in H. now rewrite H.
Qed.

Section KeyStrings.

Context {W : WebCrypto}.

Lemma encryptWithKeyString_run (b : bytes) (s : string) (e : entropy) :
  aes_key_length (length (Base64.decode s)) = true ->
  let key := mkKey (Base64.decode s) in
  let v := draw IV_LENGTH e in
  encryptWithKeyString b s e =
    (Ok (v ++ gcm_seal (Base64.decode s) v b), advance IV_LENGTH e,
     [SubtleImportKey (Base64.decode s); GetRandomValues IV_LENGTH;
      SubtleEncrypt key v b]).
Proof.
  intros Hs. cbv zeta. unfold encryptWithKeyString.
  run_ok ltac:(rewrite standalone_importKey_run, Hs; reflexivity).
  set (v := draw IV_LENGTH e).
  set (ct := gcm_seal (Base64.decode s) v b).
  destruct (combined_layout v ct) as [Hlen Hcat].
  run_ok ltac:(reflexivity).
  run_ok ltac:(reflexivity).
  fold v. cbn [key_raw]. fold ct.
  run_ok ltac:(apply typed_set_ok; unfold new_Uint8Array;
               rewrite repeat_length; lia).
  rewrite typed_set_ok by lia.
  cbn [outcome rest calls fst snd]. rewrite Hcat. reflexivity.
Qed.

Lemma decryptWithKeyString_run (env : bytes) (s : string) (e : entropy) :
  aes_key_length (length (Base64.decode s)) = true ->
  let key := mkKey (Base64.decode s) in
  decryptWithKeyString env s e =
    (match gcm_open (Base64.decode s) (firstn IV_LENGTH env)
             (skipn IV_LENGTH env) with
     | Some p => Ok p
     | None => Err OperationError
     end, e,
     [SubtleImportKey (Base64.decode s);
      SubtleDecrypt key (firstn IV_LENGTH env) (skipn IV_LENGTH env)]).
Proof.
  intros Hs. cbv zeta. unfold decryptWithKeyString.
  run_ok ltac:(rewrite standalone_importKey_run, Hs; reflexivity).
  unfold subtle_decrypt.
  run_ok ltac:(reflexivity). cbn [key_raw].
  now destruct (gcm_open _ _ _).
Qed.



(** X3. With the exported string of a 256-bit key, the string functions
    do what the methods of the class do with the key itself: on the same
    random bytes [encryptWithKeyString] returns the very envelope of
    [encrypt], and on every buffer of at least 28 bytes
    [decryptWithKeyString] returns what [decrypt] returns. *)
Theorem keyString_agrees_with_class (k : EncryptionKey) (b : bytes)
    (e0 e e' : entropy) :
  length (key_raw k) = 32 ->
  exists s,
    outcome (exportKey k e0) = Ok s /\
    (exists envelope,
       outcome (HelixEncryption.encrypt b k e) = Ok envelope /\
       outcome (encryptWithKeyString b s e) = Ok (data envelope)) /\
    (forall env, 28 <= length env ->
       outcome (decryptWithKeyString env s e')
         = outcome (HelixEncryption.decrypt env k e')).
Proof.
  intros Hk. exists (Base64.encode (key_raw k)).
  split; [reflexivity |].
  assert (Hs : aes_key_length
                 (length (Base64.decode (Base64.encode (key_raw k)))) = true)
    by (rewrite decode_encode, Hk; reflexivity).
  split.
  - rewrite encrypt_run. eexists. split; [reflexivity |].
    rewrite encryptWithKeyString_run by exact Hs.
    cbv zeta. now rewrite decode_encode.
  - intros env Henv.
    rewrite decryptWithKeyString_run by exact Hs.
    rewrite decrypt_run by exact Henv.
    now rewrite decode_encode.
Qed.

Hypothesis gcm_ciphertext_length : forall key iv pt,
  length (fst (gcm_ae key iv pt)) = length pt.
Hypothesis gcm_tag_length : forall key iv pt,
  length (snd (gcm_ae key iv pt)) = TAG_LENGTH.
Hypothesis gcm_ad_ae : forall key iv pt,
  length key = 32 -> length iv = IV_LENGTH ->
  gcm_ad key iv (fst (gcm_ae key iv pt)) (snd (gcm_ae key iv pt)) = Some pt.

Lemma open_sealed_envelope (key : bytes) (b : bytes) (e : entropy) :
  length key = 32 ->
  let v := draw IV_LENGTH e in
  let env := v ++ gcm_seal key v b in
  IV_LENGTH + 16 <= length env /\
  gcm_open key (firstn IV_LENGTH env) (skipn IV_LENGTH env) = Some b.
Proof.
  intros Hk. cbv zeta.
  pose proof (draw_length IV_LENGTH e) as Hv.
  destruct (split_envelope (draw IV_LENGTH e)
              (gcm_seal key (draw IV_LENGTH e) b) Hv) as [-> ->].
  split.
  - rewrite length_app, Hv,
      (gcm_seal_length gcm_ciphertext_length gcm_tag_length).
    unfold TAG_LENGTH. lia.
  - now apply (gcm_open_seal gcm_tag_length gcm_ad_ae).
Qed.


(** X5. Two encryptions in a row take their IVs from successive
    stretches of the random source.  Both envelopes decrypt to the
    plaintext, and they differ whenever the two IVs differ, even for the
    same plaintext and key. *)
Theorem successive_encryptions (b : bytes) (k : EncryptionKey)
    (e e' : entropy) :
  length (key_raw k) = 32 ->
  exists r1 r2,
    outcome ((r1 <- HelixEncryption.encrypt b k ;;
              r2 <- HelixEncryption.encrypt b k ;;
              ret (r1, r2)) e) = Ok (r1, r2) /\
    iv r1 = draw IV_LENGTH e /\
    iv r2 = draw IV_LENGTH (advance IV_LENGTH e) /\
    (iv r1 <> iv r2 -> data r1 <> data r2) /\
    outcome (HelixEncryption.decrypt (data r1) k e') = Ok b /\
    outcome (HelixEncryption.decrypt (data r2) k e') = Ok b.
Proof.
  intros Hk.
  run_ok ltac:(apply encrypt_run).
  run_ok ltac:(apply encrypt_run).
  eexists _, _. split; [reflexivity |]. cbn [iv data].
  split; [reflexivity |]. split; [reflexivity |].
  split.
  - intros Hne Heq. apply Hne.
    apply (f_equal (firstn IV_LENGTH)) in Heq.
    rewrite (proj1 (split_envelope _ _ (draw_length IV_LENGTH e))) in Heq.
    now rewrite (proj1 (split_envelope _ _
                          (draw_length IV_LENGTH (advance IV_LENGTH e))))
      in Heq.
  - split.
    + destruct (open_sealed_envelope (key_raw k) b e Hk) as [Hl Ho].
      rewrite decrypt_run by exact Hl. now rewrite Ho.
    + destruct (open_sealed_envelope (key_raw k) b (advance IV_LENGTH e) Hk)
        as [Hl Ho].
      rewrite decrypt_run by exact Hl. now rewrite Ho.
Qed.

Hypothesis pbkdf2_length : forall password salt iterations bits,
  length (pbkdf2_hmac_sha256 password salt iterations bits)
    = N.to_nat (bits / 8).

(** X6. A buffer encrypted under a key derived from a password and a
    salt is recovered by deriving the key again from the same password
    and salt and decrypting, at any later state of the random source. *)
Theorem derived_key_roundtrip (password : string) (salt b : bytes)
    (e0 e e' : entropy) :
  exists key envelope,
    outcome (HelixEncryption.deriveKey password salt e0) = Ok key /\
    outcome (HelixEncryption.encrypt b key e) = Ok envelope /\
    outcome ((again <- HelixEncryption.deriveKey password salt ;;
              HelixEncryption.decrypt (data envelope) again) e') = Ok b.
Proof.
  eexists _, _. split; [reflexivity |].
  rewrite encrypt_run. split; [reflexivity |]. cbn [data].
  run_ok ltac:(reflexivity).
  set (raw := pbkdf2_hmac_sha256 (utf8_encode password) salt 100000
                ALGORITHM_length).
  assert (Hraw : length raw = 32) by (unfold raw; now rewrite pbkdf2_length).
  destruct (open_sealed_envelope raw b e Hraw) as [Hl Ho].
  cbn [key_raw] in *. fold raw.
  rewrite decrypt_run by exact Hl. cbn [key_raw]. now rewrite Ho.
Qed.

End KeyStrings.

(** ** Download *)

Section Download.

Context {W : WebCrypto} {G : Gateway}.

Lemma downloadFile_fetched (this : HelixClient) (tx : string)
    (key : option string) (e : entropy) (r : Response) (d : bytes) :
  fetch ("https://arweave.net/" ++ tx) = Ok r ->
  resp_ok r = true -> resp_arrayBuffer r = Ok d ->
  downloadFile this tx key e =
    (if truthy key then
       match key with
       | Some keyString =>
           k <- HelixEncryption.importKey keyString ;;
           HelixEncryption.decrypt d k
       | None => ret d
       end
     else ret d) e.
Proof.
  intros Hf Hok Hd. unfold downloadFile. rewrite Hf.
  run_ok ltac:(reflexivity). rewrite Hok. cbn [negb]. rewrite Hd.
  run_ok ltac:(reflexivity).
  now destruct (_ e) as [[? ?] ?].
Qed.

(** X7. Without a key, and also with the empty string as key,
    [downloadFile] returns the fetched bytes as they are and touches
    neither key import nor cipher: what was stored encrypted comes back
    encrypted. *)
Theorem downloadFile_without_key (this : HelixClient) (tx : string)
    (key : option string) (e : entropy) (r : Response) (d : bytes) :
  key = None \/ key = Some "" ->
  fetch ("https://arweave.net/" ++ tx) = Ok r ->
  resp_ok r = true -> resp_arrayBuffer r = Ok d ->
  downloadFile this tx key e = (Ok d, e, []).
Proof.
  intros Hk Hf Hok Hd.
  rewrite (downloadFile_fetched this tx key e r d Hf Hok Hd).
  now destruct Hk as [-> | ->].
Qed.

(** X8. When the gateway answers with a status that is not ok, the call
    fails with the message [Failed to download file: ] followed by the
    status text, whatever key was passed; nothing is imported or
    decrypted.  No token and no wallet are asked for. *)
Theorem downloadFile_not_ok (this : HelixClient) (tx : string)
    (key : option string) (e : entropy) (r : Response) :
  fetch ("https://arweave.net/" ++ tx) = Ok r ->
  resp_ok r = false ->
  downloadFile this tx key e =
    (Err (Error ("Failed to download file: " ++ resp_statusText r)), e, []).
Proof.
  intros Hf Hok. unfold downloadFile. rewrite Hf.
  run_ok ltac:(reflexivity). now rewrite Hok.
Qed.

Lemma decrypt_guard (env : bytes) (k : EncryptionKey) (e : entropy) :
  length env < 28 ->
  HelixEncryption.decrypt env k e = (Err InvalidEnvelope, e, []).
Proof.
  intros H. unfold HelixEncryption.decrypt.
  apply Nat.ltb_lt in H. unfold IV_LENGTH. cbn [Nat.add]. now rewrite H.
Qed.


End Download.

(** ** More on the upload *)

Lemma IrysUpload_inj (p p' : bytes) (t t' : list (string * string)) :
  IrysUpload p t = IrysUpload p' t' -> p = p' /\ t = t'.
Proof. intros H. now inversion H. Qed.

Lemma FilesCreate_inj (b b' : option string) (p p' : CreateFileParams) :
  FilesCreate b p = FilesCreate b' p' -> b = b' /\ p = p'.
Proof. intros H. now inversion H. Qed.

Ltac in_cases H :=
  cbn [In app] in H;
  repeat (destruct H as [H | H]; [try discriminate H |]);
  try contradiction.

Ltac pick_call := cbn [In app]; repeat first [left; reflexivity | right].

Lemma Ok_inj {A} (a b : A) : Ok a = Ok b -> a = b.
Proof. intros H. now inversion H. Qed.

Lemma SubtleEncrypt_inj (k k' : CryptoKey) (v v' d d' : bytes) :
  SubtleEncrypt k v d = SubtleEncrypt k' v' d' -> k = k' /\ v = v' /\ d = d'.
Proof. intros H. now inversion H. Qed.

Ltac upload_cases this file options e Htok :=
  let Hopt := fresh "Hopt" in
  destruct (encrypt_opt_cases options) as [Hopt | Hopt];
  [rewrite (uploadFile_plain_run this file options e _ Htok Hopt)
  | rewrite (uploadFile_encrypted_run this file options e _ Htok Hopt)];
  cbv zeta;
  (destruct (irys_upload _ _ _) as [?tx | ?x] eqn:?Hup;
   [destruct (files_create _ _) as [?rec | ?x] eqn:?Hcr |]);
  cbn [calls snd outcome fst rest].

Section UploadMore.

Context {W : WebCrypto} {B : Backend}.

Lemma uploadFile_ok_token (this : HelixClient) (file : bytes)
    (options : UploadOptions) (e : entropy) (res : UploadResult) :
  outcome (uploadFile this file options e) = Ok res ->
  exists tok, authToken this = Some tok.
Proof.
  destruct (authToken this) as [tok |] eqn:Htok; [now exists tok |].
  unfold uploadFile, isAuthenticated. rewrite Htok. discriminate.
Qed.

(** X10. The registry is asked only after the transport has stored the
    payload, with the transaction id the transport returned and the
    client's token.  When the transport fails, its error is the outcome
    and no record is created; when the registry fails, its error is the
    outcome although the payload has been stored. *)
Theorem uploadFile_registers_after_store (this : HelixClient) (file : bytes)
    (options : UploadOptions) (e : entropy) :
  let run := uploadFile this file options e in
  (forall bearer params, In (FilesCreate bearer params) (calls run) ->
     exists payload,
       In (IrysUpload payload (upload_tags (mimeType options))) (calls run) /\
       irys_upload (wallet this) payload (upload_tags (mimeType options))
         = Ok (cf_transactionId params) /\
       bearer = authToken this) /\
  (forall payload tags x,
     In (IrysUpload payload tags) (calls run) ->
     irys_upload (wallet this) payload tags = Err x ->
     outcome run = Err x /\
     forall bearer params, ~ In (FilesCreate bearer params) (calls run)) /\
  (forall bearer params x,
     In (FilesCreate bearer params) (calls run) ->
     files_create bearer params = Err x ->
     outcome run = Err x).
Proof.
  cbv zeta.
  destruct (authToken this) as [tok |] eqn:Htok.
  2:{ assert (Hrun : uploadFile this file options e
                     = (Err NotAuthenticated, e, []))
        by (unfold uploadFile, isAuthenticated; now rewrite Htok).
      rewrite Hrun. repeat split; intros; cbn in *; contradiction. }
  destruct (encrypt_opt_cases options) as [Hopt | Hopt];
    [rewrite (uploadFile_plain_run this file options e tok Htok Hopt)
    | rewrite (uploadFile_encrypted_run this file options e tok Htok Hopt)];
    cbv zeta;
    (destruct (irys_upload _ _ _) as [tx | x0] eqn:Hup;
     [destruct (files_create _ _) as [rec | x1] eqn:Hcr |]);
    cbn [calls snd outcome fst].
  all: split;
    [ (* the registry call comes with a stored payload *)
      intros bearer params Hin; in_cases Hin;
      (apply FilesCreate_inj in Hin; destruct Hin as [<- <-]; eexists;
       split; [pick_call | split; [exact Hup | reflexivity]])
    | split;
      [ (* a failed transport *)
        intros payload tags x Hin Herr; in_cases Hin;
        (apply IrysUpload_inj in Hin; destruct Hin as [<- <-];
         first [congruence
               | split; [congruence |];
                 intros bearer params Hin'; in_cases Hin'
])
      | (* a failed registry *)
        intros bearer params x Hin Herr; in_cases Hin;
        (apply FilesCreate_inj in Hin; destruct Hin as [<- <-];
         congruence) ] ].
Qed.

Lemma uploadFile_no_token (this : HelixClient) (file : bytes)
    (options : UploadOptions) (e : entropy) :
  authToken this = None ->
  uploadFile this file options e = (Err NotAuthenticated, e, []).
Proof.
  intros H. unfold uploadFile, isAuthenticated. now rewrite H.
Qed.

(** X11. Whatever an upload encrypts, it encrypts under the one key it
    generated from the first 32 random bytes; the file is encrypted with
    the 12 bytes that follow as IV, and the name with the 12 bytes after
    those. *)
Theorem uploadFile_encryptions (this : HelixClient) (file : bytes)
    (options : UploadOptions) (e : entropy) (key : CryptoKey)
    (v d : bytes) :
  In (SubtleEncrypt key v d) (calls (uploadFile this file options e)) ->
  key = mkKey (draw 32 e) /\
  ((v = draw IV_LENGTH (advance 32 e) /\ d = file) \/
   (v = draw IV_LENGTH (advance IV_LENGTH (advance 32 e)) /\
    d = utf8_encode (name options))).
Proof.
  destruct (authToken this) as [tok |] eqn:Htok.
  2:{ rewrite uploadFile_no_token by exact Htok. intros []. }
  upload_cases this file options e Htok.
  all: intros Hin; in_cases Hin.
  all: apply SubtleEncrypt_inj in Hin; destruct Hin as (<- & <- & <-).
  all: split; [reflexivity |]; first [left; now split | right; now split].
Qed.

(** X12. An upload with [encrypt: false] stores the file bytes
    themselves, draws nothing from the random source, calls nothing but
    the transport and the registry, and registers no name at all. *)
Theorem uploadFile_plain (this : HelixClient) (file : bytes)
    (options : UploadOptions) (e : entropy) :
  encrypt_opt options = Some false ->
  let run := uploadFile this file options e in
  rest run = e /\
  (forall c, In c (calls run) ->
     c = IrysUpload file (upload_tags (mimeType options)) \/
     exists tx,
       c = FilesCreate (authToken this)
             (mkCreateFileParams tx None (mimeType options) (length file)
                false)).
Proof.
  intros Hopt. cbv zeta.
  destruct (authToken this) as [tok |] eqn:Htok.
  2:{ rewrite uploadFile_no_token by exact Htok. split; [reflexivity |].
      intros c []. }
  rewrite (uploadFile_plain_run this file options e tok Htok Hopt).
  cbv zeta.
  destruct (irys_upload _ _ _) as [tx | x];
    [destruct (files_create _ _) as [rec | x] |];
    cbn [calls snd rest fst]; (split; [reflexivity |]);
    intros c Hin; cbn [In] in Hin;
    repeat (destruct Hin as [<- | Hin]; [eauto |]); contradiction.
Qed.

(** X13. The size put in the registry record is the length of the file
    as given, also when the stored payload is the envelope; the MIME
    type is the one of the options. *)
Theorem uploadFile_registered_size (this : HelixClient) (file : bytes)
    (options : UploadOptions) (e : entropy) (bearer : option string)
    (params : CreateFileParams) :
  In (FilesCreate bearer params) (calls (uploadFile this file options e)) ->
  cf_size params = length file /\ cf_mimeType params = mimeType options.
Proof.
  destruct (authToken this) as [tok |] eqn:Htok.
  2:{ rewrite uploadFile_no_token by exact Htok. intros []. }
  upload_cases this file options e Htok.
  all: intros Hin; in_cases Hin.
  all: apply FilesCreate_inj in Hin; destruct Hin as [<- <-].
  all: split; reflexivity.
Qed.

Hypothesis gcm_ciphertext_length : forall key iv pt,
  length (fst (gcm_ae key iv pt)) = length pt.
Hypothesis gcm_tag_length : forall key iv pt,
  length (snd (gcm_ae key iv pt)) = TAG_LENGTH.

(** X14. When the upload encrypts, what it hands to the transport is 28
    bytes longer than the file. *)
Theorem uploadFile_payload_length (this : HelixClient) (file : bytes)
    (options : UploadOptions) (e : entropy) (payload : bytes)
    (tags : list (string * string)) :
  encrypt_opt options <> Some false ->
  In (IrysUpload payload tags) (calls (uploadFile this file options e)) ->
  length payload = length file + 28.
Proof.
  intros Hopt.
  destruct (authToken this) as [tok |] eqn:Htok.
  2:{ rewrite uploadFile_no_token by exact Htok. intros []. }
  rewrite (uploadFile_encrypted_run this file options e tok Htok Hopt).
  cbv zeta.
  destruct (irys_upload _ _ _) as [tx | x];
    [destruct (files_create _ _) as [rec | x] |];
    cbn [calls snd]; intros Hin; in_cases Hin;
    apply IrysUpload_inj in Hin; destruct Hin as [<- <-];
    rewrite length_app, draw_length,
      (gcm_seal_length gcm_ciphertext_length gcm_tag_length);
    unfold IV_LENGTH, TAG_LENGTH; lia.
Qed.

Hypothesis gcm_ad_ae : forall key iv pt,
  length key = 32 -> length iv = IV_LENGTH ->
  gcm_ad key iv (fst (gcm_ae key iv pt)) (snd (gcm_ae key iv pt)) = Some pt.

(** X15. The file name reaches the registry only encrypted.  Without
    encryption no name is registered; with it, the registered name is
    the base64 of an envelope that decrypts to the UTF-8 bytes of the
    name under the key string the call returns. *)
Theorem uploadFile_registered_name (this : HelixClient) (file : bytes)
    (options : UploadOptions) (e e' : entropy) (res : UploadResult)
    (bearer : option string) (params : CreateFileParams) :
  outcome (uploadFile this file options e) = Ok res ->
  In (FilesCreate bearer params) (calls (uploadFile this file options e)) ->
  match encryptionKey res with
  | None => cf_encryptedName params = None
  | Some keyString =>
      exists encrypted,
        cf_encryptedName params = Some encrypted /\
        outcome ((k <- HelixEncryption.importKey keyString ;;
                  HelixEncryption.decrypt (Base64.decode encrypted) k) e')
          = Ok (utf8_encode (name options))
  end.
Proof.
  intros Hres.
  destruct (uploadFile_ok_token this file options e res Hres) as [tok Htok].
  revert Hres.
  upload_cases this file options e Htok; try discriminate.
  - intros Hres Hin. apply Ok_inj in Hres. subst res.
    cbn [encryptionKey]. in_cases Hin.
    apply FilesCreate_inj in Hin. now destruct Hin as [_ <-].
  - intros Hres Hin.
    apply Ok_inj in Hres. subst res. cbn [encryptionKey]. in_cases Hin.
    apply FilesCreate_inj in Hin. destruct Hin as [_ <-].
    eexists. split; [reflexivity |].
    run_ok ltac:(rewrite importKey_run, decode_encode, draw_length;
                 reflexivity).
    rewrite decode_encode.
    destruct (open_sealed_envelope gcm_ciphertext_length gcm_tag_length
                gcm_ad_ae (draw 32 e) (utf8_encode (name options))
                (advance IV_LENGTH (advance 32 e)) (draw_length 32 e))
      as [Hl Ho].
    rewrite decrypt_run by exact Hl. cbn [key_raw]. now rewrite Ho.
Qed.

End UploadMore.

(** ** Upload, then download *)

Section UploadDownload.

Context {W : WebCrypto} {B : Backend} {G : Gateway}.

Hypothesis gcm_ciphertext_length : forall key iv pt,
  length (fst (gcm_ae key iv pt)) = length pt.
Hypothesis gcm_tag_length : forall key iv pt,
  length (snd (gcm_ae key iv pt)) = TAG_LENGTH.
Hypothesis gcm_ad_ae : forall key iv pt,
  length key = 32 -> length iv = IV_LENGTH ->
  gcm_ad key iv (fst (gcm_ae key iv pt)) (snd (gcm_ae key iv pt)) = Some pt.

(** X16. If the gateway serves, under the URL an upload returned, the
    payload this upload stored, then [downloadFile] with the returned
    transaction id and key gives back the file: decrypted when the
    upload encrypted, as stored when it did not.  Any client can do the
    download, signed in or not. *)
Theorem downloadFile_after_uploadFile (this reader : HelixClient)
    (file : bytes) (options : UploadOptions) (e e' : entropy)
    (res : UploadResult) :
  outcome (uploadFile this file options e) = Ok res ->
  (forall payload tags,
     In (IrysUpload payload tags) (calls (uploadFile this file options e)) ->
     exists r, fetch (arweaveUrl res) = Ok r /\ resp_ok r = true /\
               resp_arrayBuffer r = Ok payload) ->
  outcome (downloadFile reader (transactionId res) (encryptionKey res) e')
    = Ok file.
Proof.
  intros Hres.
  destruct (uploadFile_ok_token this file options e res Hres) as [tok Htok].
  revert Hres.
  upload_cases this file options e Htok; try discriminate.
  - intros Hres Hgw. apply Ok_inj in Hres. subst res.
    cbn [transactionId encryptionKey arweaveUrl] in *.
    destruct (Hgw _ _ ltac:(left; reflexivity)) as (r & Hf & Hok & Hd).
    rewrite (downloadFile_fetched reader tx None e' r file Hf Hok Hd).
    reflexivity.
  - intros Hres Hgw. apply Ok_inj in Hres. subst res.
    cbn [transactionId encryptionKey arweaveUrl] in *.
    destruct (Hgw _ _ ltac:(pick_call)) as (r & Hf & Hok & Hd).
    rewrite (downloadFile_fetched reader tx _ e' r _ Hf Hok Hd).
    rewrite truthy_encode
      by (intros H; apply (f_equal (@length byte)) in H;
          rewrite draw_length in H; discriminate).
    run_ok ltac:(rewrite importKey_run, decode_encode, draw_length;
                 reflexivity).
    destruct (open_sealed_envelope gcm_ciphertext_length gcm_tag_length
                gcm_ad_ae (draw 32 e) file (advance 32 e) (draw_length 32 e))
      as [Hl Ho].
    rewrite decrypt_run by exact Hl. cbn [key_raw]. now rewrite Ho.
Qed.

End UploadDownload.

(** ** Signing in and out *)

Section Session.

Context {B : Backend}.

(** X17. With a wallet that has an address and can sign, and a service
    that answers both requests, [authenticate] fetches the nonce, has the
    wallet sign the UTF-8 bytes of exactly the message
    [createSignMessage] builds for it, sends the signature in base64, and
    leaves the client holding the token of the answer, with its wallet
    unchanged. *)
Theorem authenticate_success (this : HelixClient) (w : WalletAdapter)
    (address nonce : string) (sign : bytes -> result bytes)
    (signature : bytes) (answer : AuthToken) (e : entropy) :
  wallet this = Some w ->
  publicKey w = Some address ->
  signMessage w = Some sign ->
  auth_nonce address = Ok nonce ->
  sign (utf8_encode (createSignMessage nonce)) = Ok signature ->
  auth_verify address (Base64.encode signature) nonce = Ok answer ->
  exists signedIn,
    authenticate this e =
      (Ok (token answer, signedIn), e,
       [AuthGetNonce address;
        AuthVerify address (Base64.encode signature) nonce]) /\
    authToken signedIn = Some (token answer) /\
    wallet signedIn = Some w /\
    isAuthenticated signedIn = true.
Proof.
  intros Hw Hpk Hsm Hn Hs Hv.
  exists (mkClient (wallet this) (Some (token answer))).
  split; [| split; [| split]]; cycle 1.
  - reflexivity.
  - cbn [wallet]. exact Hw.
  - reflexivity.
  - unfold authenticate. rewrite Hw, Hpk.
    unfold HelixAuth.getNonce.
    run_ok ltac:(rewrite emit_settle, Hn; reflexivity).
    rewrite Hsm. unfold createSignMessage in Hs. rewrite Hs.
    run_ok ltac:(reflexivity).
    unfold HelixAuth.verify.
    run_ok ltac:(rewrite emit_settle, Hv; reflexivity).
    reflexivity.
Qed.

(** X18. No signature, no verification: whenever [authenticate] sends a
    verify request, the client has a wallet with an address and a
    signing function, the service has issued the nonce, and the
    signature sent is the base64 of what the wallet signed for that
    nonce. *)
Theorem authenticate_verifies_signed (this : HelixClient) (e : entropy)
    (address signature nonce : string) :
  In (AuthVerify address signature nonce) (calls (authenticate this e)) ->
  exists w sign signed,
    wallet this = Some w /\ publicKey w = Some address /\
    signMessage w = Some sign /\
    auth_nonce address = Ok nonce /\
    sign (utf8_encode (createSignMessage nonce)) = Ok signed /\
    signature = Base64.encode signed.
Proof.
  unfold authenticate.
  destruct (wallet this) as [w |]; [| intros []].
  destruct (publicKey w) as [a |] eqn:Hpk; [| intros []].
  unfold HelixAuth.getNonce.
  erewrite bind_run by apply emit_settle.
  destruct (auth_nonce a) as [n |] eqn:Hn;
    [| cbn [calls snd]; intros Hin; in_cases Hin].
  destruct (signMessage w) as [sign |] eqn:Hsm;
    [| cbn [calls snd throw app]; intros Hin; in_cases Hin].
  destruct (sign (utf8_encode ("Sign in to Helix: " ++ n))) as [sg |] eqn:Hs;
    [| cbn [calls snd throw settle bind app]; intros Hin; in_cases Hin].
  run_ok ltac:(reflexivity).
  unfold HelixAuth.verify.
  erewrite bind_run by apply emit_settle.
  intros Hin.
  assert (Hv : AuthVerify a (Base64.encode sg) n
               = AuthVerify address signature nonce).
  { destruct (auth_verify _ _ _); cbn [calls snd app] in Hin; in_cases Hin;
      exact Hin. }
  inversion Hv; subst.
  exists w, sign, sg. repeat split; assumption.
Qed.

(** X19. A wallet that cannot sign messages is found out only after the
    nonce has been requested: the call then fails with that message, has
    sent one request, and no verification. *)
Theorem authenticate_cannot_sign (this : HelixClient) (w : WalletAdapter)
    (address nonce : string) (e : entropy) :
  wallet this = Some w ->
  publicKey w = Some address ->
  signMessage w = None ->
  auth_nonce address = Ok nonce ->
  authenticate this e =
    (Err (Error "Wallet does not support message signing"), e,
     [AuthGetNonce address]).
Proof.
  intros Hw Hpk Hsm Hn. unfold authenticate. rewrite Hw, Hpk.
  unfold HelixAuth.getNonce.
  run_ok ltac:(rewrite emit_settle, Hn; reflexivity).
  now rewrite Hsm.
Qed.

Context {W : WebCrypto}.

(** X20. [connect] refuses a wallet without a public key and otherwise
    replaces the wallet and keeps the token: a client that was signed in
    stays signed in under the new wallet. *)
Theorem connect_keeps_token (this : HelixClient) (w : WalletAdapter)
    (e : entropy) :
  (publicKey w = None ->
   connect this w e = (Err (Error "Wallet not connected"), e, [])) /\
  (publicKey w <> None ->
   exists connected,
     connect this w e = (Ok connected, e, []) /\
     wallet connected = Some w /\
     authToken connected = authToken this /\
     isAuthenticated connected = isAuthenticated this).
Proof.
  unfold connect. destruct (publicKey w) as [a |]; split.
  - discriminate.
  - intros _. exists (mkClient (Some w) (authToken this)).
    repeat split.
  - reflexivity.
  - congruence.
Qed.

End Session.

(** ** Tokens, headers, configuration *)

Lemma split_length (sep : ascii) (s : string) :
  length (String_split sep s)
    = S (count_occ ascii_dec (list_ascii_of_string s) sep).
Proof.
  induction s as [| c s IH]; [reflexivity |].
  cbn [String_split list_ascii_of_string count_occ].
  destruct (Ascii.eqb c sep) eqn:Hc.
  - apply Ascii.eqb_eq in Hc. subst c.
    destruct (ascii_dec sep sep) as [_ | Hn]; [| contradiction].
    cbn [length]. now rewrite IH.
  - apply Ascii.eqb_neq in Hc.
    destruct (ascii_dec c sep) as [Heq | _]; [contradiction |].
    rewrite <- IH. now destruct (String_split sep s).
Qed.

(** X21. A token that does not have exactly two dots is no JWT for
    [parseToken], which throws [Invalid token format], and is expired
    for [isTokenExpired] at every instant, whatever the JSON parser
    does. *)
Theorem malformed_token_expired {J : Json} (token : string) (now : Z) :
  count_occ ascii_dec (list_ascii_of_string token) "."%char <> 2 ->
  parseToken token = Err (Error "Invalid token format") /\
  isTokenExpired token now = true.
Proof.
  intros Hdots.
  assert (Hp : parseToken token = Err (Error "Invalid token format")).
  { unfold parseToken. rewrite split_length.
    destruct (_ =? 3) eqn:H3; [| reflexivity].
    apply Nat.eqb_eq in H3. lia. }
  split; [exact Hp |]. unfold isTokenExpired. now rewrite Hp.
Qed.

(** X22. Every request carries the JSON content type.  It carries an
    [Authorization] header exactly when the token is a non-empty string,
    and then the header is [Bearer ] followed by the token.  So a client
    counts as signed in and yet sends no authorization exactly when its
    token is the empty string. *)
Theorem getHeaders_authorization (this : HelixClient) :
  In ("Content-Type", "application/json") (getHeaders (authToken this)) /\
  (forall v,
     In ("Authorization", v) (getHeaders (authToken this)) <->
     exists t, authToken this = Some t /\ t <> "" /\
               v = ("Bearer " ++ t)%string) /\
  ((isAuthenticated this = true /\
    forall v, ~ In ("Authorization", v) (getHeaders (authToken this))) <->
   authToken this = Some "").
Proof.
  unfold getHeaders, isAuthenticated.
  destruct (authToken this) as [t |].
  - cbn [truthy]. destruct (String.eqb t "") eqn:Ht; cbn [negb].
    + apply String.eqb_eq in Ht. subst t.
      split; [left; reflexivity |]. split.
      * intros v. split.
        -- intros [H | []]. discriminate.
        -- intros (t & Ht & Hne & _). congruence.
      * split; [reflexivity |]. intros _. split; [reflexivity |].
        intros v [H | []]. discriminate.
    + apply String.eqb_neq in Ht.
      split; [left; reflexivity |]. split.
      * intros v. split.
        -- intros [H | [H | []]]; [discriminate |].
           exists t. repeat split; congruence.
        -- intros (t' & Ht' & _ & ->). right. left. congruence.
      * split.
        -- intros [_ H]. exfalso. apply (H ("Bearer " ++ t)%string).
           right. left. reflexivity.
        -- congruence.
  - cbn [truthy]. split; [left; reflexivity |]. split.
    + intros v. split.
      * intros [H | []]. discriminate.
      * intros (t & Ht & _). discriminate.
    + split; [intros [H _]; discriminate | discriminate].
Qed.


(** ** The further statements at work on the sample platform *)




Lemma keyString_agrees_with_class_witness :
  exists s,
    outcome (exportKey Sample.key32 Sample.counter) = Ok s /\
    (exists envelope,
       outcome (HelixEncryption.encrypt (W := Sample.crypto) Sample.hello
                  Sample.key32 Sample.counter) = Ok envelope /\
       outcome (encryptWithKeyString (W := Sample.crypto) Sample.hello s
                  Sample.counter) = Ok (data envelope)) /\
    (forall env, 28 <= length env ->
       outcome (decryptWithKeyString (W := Sample.crypto) env s Sample.counter)
         = outcome (HelixEncryption.decrypt (W := Sample.crypto) env
                      Sample.key32 Sample.counter)).
Proof.
  apply (@keyString_agrees_with_class Sample.crypto Sample.key32 Sample.hello
           Sample.counter Sample.counter Sample.counter).
  reflexivity.
Defined.

Lemma successive_encryptions_witness :
  exists r1 r2,
    outcome ((r1 <- HelixEncryption.encrypt (W := Sample.crypto)
                      Sample.hello Sample.key32 ;;
              r2 <- HelixEncryption.encrypt (W := Sample.crypto)
                      Sample.hello Sample.key32 ;;
              ret (r1, r2)) Sample.counter) = Ok (r1, r2) /\
    iv r1 <> iv r2 /\ data r1 <> data r2.
Proof.
  destruct (@successive_encryptions Sample.crypto
              SampleFacts.ae_ciphertext_length SampleFacts.ae_tag_length
              SampleFacts.ad_ae Sample.hello Sample.key32 Sample.counter
              Sample.counter eq_refl)
    as (r1 & r2 & Hrun & H1 & H2 & Hne & _).
  exists r1, r2. split; [exact Hrun |].
  assert (Hiv : iv r1 <> iv r2)
    by (rewrite H1, H2; vm_compute; discriminate).
  split; [exact Hiv | exact (Hne Hiv)].
Defined.

Lemma derived_key_roundtrip_witness :
  exists key envelope,
    outcome (HelixEncryption.deriveKey (W := Sample.crypto) "secret"
               (draw 16 Sample.counter) Sample.counter) = Ok key /\
    outcome (HelixEncryption.encrypt (W := Sample.crypto) Sample.hello key
               Sample.counter) = Ok envelope /\
    outcome ((again <- HelixEncryption.deriveKey (W := Sample.crypto) "secret"
                         (draw 16 Sample.counter) ;;
              HelixEncryption.decrypt (W := Sample.crypto)
                (data envelope) again)
               (advance 5 Sample.counter)) = Ok Sample.hello.
Proof.
  apply (@derived_key_roundtrip Sample.crypto
           SampleFacts.ae_ciphertext_length SampleFacts.ae_tag_length
           SampleFacts.ad_ae SampleFacts.kdf_length).
Defined.

Lemma demo_upload_result :
  outcome Demo.upload
  = Ok (mkUploadResult "abc123" (Some Demo.keyString)
          "https://arweave.net/abc123").
Proof. vm_compute. reflexivity. Qed.

Lemma demo_gateway_serves (payload : bytes) (tags : list (string * string)) :
  In (IrysUpload payload tags) (calls Demo.upload) ->
  exists r,
    fetch (Gateway := Demo.gateway) "https://arweave.net/abc123" = Ok r /\
    resp_ok r = true /\ resp_arrayBuffer r = Ok payload.
Proof.
  intros Hin.
  assert (Hu : Demo.uploaded (calls Demo.upload) = Some payload).
  { vm_compute in Hin |- *.
    repeat (destruct Hin as [Hin | Hin]; [try discriminate Hin |]);
      [| contradiction].
    now inversion Hin. }
  eexists. unfold fetch, Demo.gateway. cbn [String.eqb].
  rewrite Hu. repeat split.
Qed.

Lemma downloadFile_after_uploadFile_witness :
  outcome (downloadFile (W := Sample.crypto) (G := Demo.gateway)
             (mkClient None None) "abc123" (Some Demo.keyString)
             Sample.counter) = Ok Sample.hello.
Proof.
  apply (@downloadFile_after_uploadFile Sample.crypto Sample.backend
           Demo.gateway SampleFacts.ae_ciphertext_length
           SampleFacts.ae_tag_length SampleFacts.ad_ae
           Sample.client (mkClient None None) Sample.hello Sample.defaults
           Sample.counter Sample.counter
           (mkUploadResult "abc123" (Some Demo.keyString)
              "https://arweave.net/abc123")).
  - exact demo_upload_result.
  - exact demo_gateway_serves.
Defined.

Lemma downloadFile_without_key_witness :
  exists stored,
    Demo.uploaded (calls Demo.upload) = Some stored /\
    downloadFile (W := Sample.crypto) (G := Demo.gateway)
      (mkClient None None) "abc123" (Some "") Sample.counter
    = (Ok stored, Sample.counter, []).
Proof.
  eexists. split; [vm_compute; reflexivity |].
  eapply (@downloadFile_without_key Sample.crypto Demo.gateway).
  - right. reflexivity.
  - vm_compute. reflexivity.
  - reflexivity.
  - reflexivity.
Defined.

Lemma downloadFile_not_ok_witness :
  downloadFile (W := Sample.crypto) (G := Demo.gateway)
    (mkClient None None) "missing" (Some Demo.keyString) Sample.counter
  = (Err (Error "Failed to download file: Not Found"), Sample.counter, []).
Proof.
  apply (@downloadFile_not_ok Sample.crypto Demo.gateway (mkClient None None)
           "missing" (Some Demo.keyString) Sample.counter
           (mkResponse false "Not Found" (Ok []))).
  - reflexivity.
  - reflexivity.
Defined.


Lemma demo_registered :
  exists name,
    In (FilesCreate (Some "jwt")
          (mkCreateFileParams "abc123" (Some name) "text/plain" 5 true))
       (calls Demo.upload).
Proof. eexists. vm_compute. do 8 right. left. reflexivity. Qed.

Lemma uploadFile_registers_after_store_witness :
  exists payload,
    In (IrysUpload payload (upload_tags "text/plain")) (calls Demo.upload) /\
    irys_upload (Backend := Sample.backend) (Some Sample.signer) payload
      (upload_tags "text/plain") = Ok "abc123".
Proof.
  destruct demo_registered as [name Hin].
  destruct (proj1 (@uploadFile_registers_after_store Sample.crypto
                     Sample.backend Sample.client Sample.hello
                     Sample.defaults Sample.counter) _ _ Hin)
    as (payload & Hup & Hid & _).
  exists payload. split; [exact Hup | exact Hid].
Defined.

Lemma uploadFile_registered_size_witness :
  exists bearer params,
    In (FilesCreate bearer params) (calls Demo.upload) /\
    cf_size params = length Sample.hello /\
    cf_mimeType params = "text/plain".
Proof.
  destruct demo_registered as [name Hin].
  eexists _, _. split; [exact Hin |].
  exact (@uploadFile_registered_size Sample.crypto Sample.backend
           Sample.client Sample.hello Sample.defaults Sample.counter _ _ Hin).
Defined.

Lemma uploadFile_registered_name_witness :
  exists encrypted,
    outcome ((k <- HelixEncryption.importKey Demo.keyString ;;
              HelixEncryption.decrypt (W := Sample.crypto)
                (Base64.decode encrypted) k) Sample.counter)
    = Ok (utf8_encode "a.txt").
Proof.
  destruct demo_registered as [name Hin].
  destruct (@uploadFile_registered_name Sample.crypto Sample.backend
              SampleFacts.ae_ciphertext_length SampleFacts.ae_tag_length
              SampleFacts.ad_ae Sample.client Sample.hello Sample.defaults
              Sample.counter Sample.counter _ _ _ demo_upload_result Hin)
    as (encrypted & _ & Hdec).
  exists encrypted. exact Hdec.
Defined.

Lemma uploadFile_encryptions_witness :
  exists key v,
    In (SubtleEncrypt key v Sample.hello) (calls Demo.upload) /\
    key = Sample.key32 /\
    v = draw IV_LENGTH (advance 32 Sample.counter).
Proof.
  assert (Hin : In (SubtleEncrypt Sample.key32
                      (draw IV_LENGTH (advance 32 Sample.counter))
                      Sample.hello) (calls Demo.upload))
    by (vm_compute; do 2 right; left; reflexivity).
  eexists _, _. split; [exact Hin |].
  destruct (@uploadFile_encryptions Sample.crypto Sample.backend
              Sample.client Sample.hello Sample.defaults Sample.counter
              _ _ _ Hin) as [Hk _].
  split; [exact Hk | reflexivity].
Defined.

Lemma uploadFile_plain_witness :
  rest (uploadFile (W := Sample.crypto) (B := Sample.backend) Sample.client
          Sample.hello (mkUploadOptions "a.txt" "text/plain" (Some false))
          Sample.counter) = Sample.counter.
Proof.
  apply (@uploadFile_plain Sample.crypto Sample.backend Sample.client
           Sample.hello (mkUploadOptions "a.txt" "text/plain" (Some false))
           Sample.counter).
  reflexivity.
Defined.

Lemma uploadFile_payload_length_witness :
  exists payload tags,
    In (IrysUpload payload tags) (calls Demo.upload) /\
    length payload = length Sample.hello + 28.
Proof.
  assert (Hin : exists payload tags,
            In (IrysUpload payload tags) (calls Demo.upload))
    by (eexists _, _; vm_compute; do 4 right; left; reflexivity).
  destruct Hin as (payload & tags & Hin).
  exists payload, tags. split; [exact Hin |].
  apply (@uploadFile_payload_length Sample.crypto Sample.backend
           SampleFacts.ae_ciphertext_length SampleFacts.ae_tag_length
           Sample.client Sample.hello Sample.defaults Sample.counter
           payload tags); [discriminate | exact Hin].
Defined.

Lemma authenticate_success_witness :
  exists signedIn,
    authenticate (B := Sample.backend) (mkClient (Some Sample.signer) None)
      Sample.counter
    = (Ok ("jwt", signedIn), Sample.counter,
       [AuthGetNonce "wallet1";
        AuthVerify "wallet1"
          (Base64.encode (utf8_encode (createSignMessage "n0"))) "n0"]) /\
    isAuthenticated signedIn = true.
Proof.
  destruct (@authenticate_success Sample.backend
              (mkClient (Some Sample.signer) None) Sample.signer
              "wallet1" "n0" (fun m => Ok m)
              (utf8_encode (createSignMessage "n0")) Sample.session
              Sample.counter eq_refl eq_refl eq_refl eq_refl eq_refl eq_refl)
    as (signedIn & Hrun & _ & _ & Hauth).
  exists signedIn. split; [exact Hrun | exact Hauth].
Defined.

Lemma authenticate_verifies_signed_witness :
  exists w sign signed,
    wallet (mkClient (Some Sample.signer) None) = Some w /\
    publicKey w = Some "wallet1" /\
    signMessage w = Some sign /\
    auth_nonce (Backend := Sample.backend) "wallet1" = Ok "n0" /\
    sign (utf8_encode (createSignMessage "n0")) = Ok signed /\
    Base64.encode (utf8_encode (createSignMessage "n0"))
      = Base64.encode signed.
Proof.
  apply (@authenticate_verifies_signed Sample.backend
           (mkClient (Some Sample.signer) None) Sample.counter).
  vm_compute. right. left. reflexivity.
Defined.

Lemma authenticate_cannot_sign_witness :
  authenticate (B := Sample.backend) (mkClient (Some Demo.unsigned) None)
    Sample.counter
  = (Err (Error "Wallet does not support message signing"), Sample.counter,
     [AuthGetNonce "wallet1"]).
Proof.
  apply (@authenticate_cannot_sign Sample.backend
           (mkClient (Some Demo.unsigned) None) Demo.unsigned "wallet1" "n0");
    reflexivity.
Defined.

Lemma connect_keeps_token_witness :
  exists connected,
    connect Sample.client Demo.unsigned Sample.counter
      = (Ok connected, Sample.counter, []) /\
    wallet connected = Some Demo.unsigned /\
    authToken connected = Some "jwt" /\
    isAuthenticated connected = true.
Proof.
  apply (proj2 (connect_keeps_token Sample.client Demo.unsigned
                  Sample.counter)).
  discriminate.
Defined.

Lemma malformed_token_expired_witness :
  parseToken (J := Demo.json) "not-a-jwt" = Err (Error "Invalid token format") /\
  isTokenExpired (J := Demo.json) "not-a-jwt" 0 = true.
Proof.
  apply (@malformed_token_expired Demo.json "not-a-jwt" 0%Z).
  vm_compute. lia.
Defined.

